(** * HwyNetwork: routing, path resolution and travel-time allocation

    A shallow embedding of [sfdata_wrangler/HwyNetwork.py] (class
    [HwyNetwork]) together with the properties its design document
    states about it.

    Python floats are kept abstract behind the interface [FloatOps]:
    every function of the class is written once, over any carrier that
    offers the arithmetic the source uses.  Two instances are given:
    - [Q_ops], exact rational arithmetic, in which the algebraic
      properties are proved for all inputs;
    - [b64_ops], IEEE-754 binary64 (the arithmetic of CPython), in which
      the concrete scenarios are evaluated bit for bit.

    Exceptions are explicit: a method returns [result A]. *)

From Stdlib Require Import ZArith QArith Qabs Lia Lqa.
From Stdlib Require Import Floats.PrimFloat Numbers.Cyclic.Int63.Uint63.
From stdpp Require Import gmap list.

Local Open Scope Z_scope.

(** ** Exceptions and the result monad *)

Inductive exn : Set :=
| KeyError            (* dict lookup of a missing key *)
| IndexError          (* list or array index out of range *)
| ZeroDivisionError   (* float division by zero *)
| DtaError            (* dta.Network lookup of an unknown link *)
| ValueError.         (* scipy: index exceeds matrix dimensions *)

Inductive result (A : Type) : Type :=
| Ok (a : A)
| Raise (e : exn)
| NoFuel.             (* a [while] loop that did not finish in the given fuel *)

Arguments Ok {A} a.
Arguments Raise {A} e.
Arguments NoFuel {A}.

Definition bind {A B} (r : result A) (k : A -> result B) : result B :=
  match r with
  | Ok a => k a
  | Raise e => Raise e
  | NoFuel => NoFuel
  end.

Declare Scope py_scope.
Delimit Scope py_scope with py.
Notation "x <- e ;; k" := (bind e (fun x => k))
  (at level 20, e at level 99, k at level 200, only parsing) : py_scope.
Notation "' p <- e ;; k" := (bind e (fun x => match x with p => k end))
  (at level 20, p pattern, e at level 99, k at level 200, only parsing)
  : py_scope.
Local Open Scope py_scope.

(** [for x in xs: acc = body(acc, x)] *)
Fixpoint foldM {A S} (body : S -> A -> result S) (acc : S) (xs : list A)
  : result S :=
  match xs with
  | [] => Ok acc
  | x :: xs' => acc' <- body acc x ;; foldM body acc' xs'
  end.

(** ** Python sequences *)

(** [range(0, n)] *)
Definition py_range (n : nat) : list Z := map Z.of_nat (seq 0 n).

(** Position designated by index [i] in a sequence of length [n]:
    negative indices count from the end. *)
Definition py_index (n : nat) (i : Z) : option nat :=
  if (0 <=? i) && (i <? Z.of_nat n) then Some (Z.to_nat i)
  else if (- Z.of_nat n <=? i) && (i <? 0) then Some (Z.to_nat (i + Z.of_nat n))
  else None.

(** [l[i]] *)
Definition py_getitem {A} (l : list A) (i : Z) : result A :=
  match py_index (length l) i with
  | Some k => match l !! k with Some x => Ok x | None => Raise IndexError end
  | None => Raise IndexError
  end.

(** [l[i] = x] *)
Definition py_setitem {A} (l : list A) (i : Z) (x : A) : result (list A) :=
  match py_index (length l) i with
  | Some k => Ok (<[k := x]> l)
  | None => Raise IndexError
  end.

(** [d[k]] for a dict *)
Definition dict_getitem (d : gmap Z Z) (k : Z) : result Z :=
  match d !! k with
  | Some v => Ok v
  | None => Raise KeyError
  end.

(** [m[i, j]] for a two-dimensional numpy array *)
Definition np_getitem2 {A} (m : list (list A)) (i j : Z) : result A :=
  row <- py_getitem m i ;; py_getitem row j.

(** ** Floating-point interface *)

Class FloatOps (F : Type) : Type := {
  f0    : F;                 (* 0.0 *)
  f1    : F;                 (* 1.0 *)
  f60   : F;                 (* 60.0 *)
  f0_1  : F;                 (* 0.1 *)
  fadd  : F -> F -> F;
  fsub  : F -> F -> F;
  fmul  : F -> F -> F;
  fquot : F -> F -> F;       (* quotient, for a non-zero divisor *)
  fltb  : F -> F -> bool;    (* x < y *)
  fis_zero : F -> bool;      (* x == 0.0 *)
  fisinf : F -> bool;        (* numpy.isinf *)
  fof_int : Z -> F           (* float(n) *)
}.

(** [x / y]: Python raises on a zero divisor. *)
Definition fdiv {F} `{FloatOps F} (x y : F) : result F :=
  if fis_zero y then Raise ZeroDivisionError else Ok (fquot x y).

#[export] Instance Q_ops : FloatOps Q := {|
  f0 := 0%Q;
  f1 := 1%Q;
  f60 := 60%Q;
  f0_1 := (1 # 10)%Q;
  fadd := Qplus;
  fsub := Qminus;
  fmul := Qmult;
  fquot := Qdiv;
  fltb := fun x y => negb (Qle_bool y x);
  fis_zero := fun x => Qeq_bool x 0;
  fisinf := fun _ => false;
  fof_int := inject_Z
|}.

#[export] Instance b64_ops : FloatOps float := {|
  f0 := 0%float;
  f1 := 1%float;
  f60 := 60%float;
  f0_1 := 0x1.999999999999ap-4%float;
  fadd := PrimFloat.add;
  fsub := PrimFloat.sub;
  fmul := PrimFloat.mul;
  fquot := PrimFloat.div;
  fltb := PrimFloat.ltb;
  fis_zero := fun x => PrimFloat.eqb x 0%float;
  fisinf := fun x => PrimFloat.eqb (PrimFloat.abs x) PrimFloat.infinity;
  fof_int := fun z => PrimFloat.of_uint63 (Uint63.of_Z z)
|}.

(** ** Data model and the methods of [HwyNetwork] *)

Section HwyNetwork.

Context {F : Type} `{FloatOps F}.

(** [dta.RoadLink], as far as the class reads it. *)
Record RoadLink : Type := {
  getId : Z;
  getStartNodeId : Z;
  getEndNodeId : Z;
  getLengthInCoordinateUnits : F;
  getFreeFlowTTInMin : F
}.

(** [dta.Network]: the node ids in [iterNodes] order and the road links
    in [iterRoadLinks] order. *)
Record Network : Type := {
  iterNodes : list Z;
  iterRoadLinks : list RoadLink
}.

Definition getLinkForId (net : Network) (link_id : Z) : result RoadLink :=
  match List.find (fun l => getId l =? link_id) (iterRoadLinks net) with
  | Some l => Ok l
  | None => Raise DtaError
  end.

Definition getLinkForNodeIdPair (net : Network) (a b : Z) : result RoadLink :=
  match List.find (fun l => (getStartNodeId l =? a) && (getEndNodeId l =? b))
                  (iterRoadLinks net) with
  | Some l => Ok l
  | None => Raise DtaError
  end.

(** [mm.path_inference.structures.State] *)
Record State : Type := {
  link_id : Z;
  offset : F;
  distFromGPS : option F
}.

(** [mm.path_inference.structures.Path] *)
Record Path : Type := {
  start : State;
  links : list Z;
  end_ : State
}.

(** The instance fields of [HwyNetwork].  A cell of [skim] is [None]
    for numpy's [inf]; [pred] holds [-9999] where there is no
    predecessor. *)
Record HwyNetwork : Type := {
  net : Network;
  n2i : gmap Z Z;
  i2n : gmap Z Z;
  skim : list (list (option F));
  pred : list (list Z)
}.

(** [numpy.isinf] on a cell of [skim] *)
Definition isinf (c : option F) : bool :=
  match c with
  | None => true
  | Some x => fisinf x
  end.

(** *** Travel-time allocation *)

Definition getLinkOffsetRatio (self : HwyNetwork) (state : State) : result F :=
  link <- getLinkForId (net self) (link_id state) ;;
  let dist := getLengthInCoordinateUnits link in
  ratio <- fdiv (offset state) dist ;;
  Ok ratio.

Definition getPathTraversalRatios (self : HwyNetwork) (path : Path)
  : result (list F) :=
  let n := length (links path) in
  let ratios := replicate n f1 in
  firstOffsetRatio <- getLinkOffsetRatio self (start path) ;;
  r0 <- py_getitem ratios 0 ;;
  ratios <- py_setitem ratios 0 (fsub r0 firstOffsetRatio) ;;
  lastOffsetRatio <- getLinkOffsetRatio self (end_ path) ;;
  rl <- py_getitem ratios (Z.of_nat n - 1) ;;
  ratios <- py_setitem ratios (Z.of_nat n - 1)
              (fsub rl (fsub f1 lastOffsetRatio)) ;;
  Ok ratios.

Definition getPathFreeFlowTTInSeconds (self : HwyNetwork) (path : Path)
  : result F :=
  traversalRatios <- getPathTraversalRatios self path ;;
  foldM (fun tot_tt i =>
           lid <- py_getitem (links path) i ;;
           link <- getLinkForId (net self) lid ;;
           r <- py_getitem traversalRatios i ;;
           Ok (fadd tot_tt (fmul (fmul f60 (getFreeFlowTTInMin link)) r)))
        f0 (py_range (length (links path))).

(** [start_time] and [end_time] are given in seconds on a common clock,
    so that [(end_time - start_time).total_seconds()] is their
    difference. *)
Definition allocatePathTravelTimeToLinks (self : HwyNetwork) (path : Path)
    (start_time end_time : F) : result (list Z * list F * list F) :=
  traversalRatios <- getPathTraversalRatios self path ;;
  let tot_tt := fsub end_time start_time in
  tot_ff_time <- getPathFreeFlowTTInSeconds self path ;;
  link_tt <-
    foldM (fun link_tt i =>
             tt <- (if fltb tot_ff_time f0_1 then
                      share <- fdiv f1 (fof_int (Z.of_nat (length (links path)))) ;;
                      Ok (fmul tot_tt share)
                    else
                      lid <- py_getitem (links path) i ;;
                      link <- getLinkForId (net self) lid ;;
                      r <- py_getitem traversalRatios i ;;
                      let ff_time := fmul (fmul f60 (getFreeFlowTTInMin link)) r in
                      share <- fdiv ff_time tot_ff_time ;;
                      Ok (fmul tot_tt share)) ;;
             Ok (link_tt ++ [tt]))
          [] (py_range (length (links path))) ;;
  Ok (links path, traversalRatios, link_tt).

(** *** Shortest paths

    [scipy.sparse.csr_matrix] and [scipy.sparse.csgraph.shortest_path]
    are library calls; they are modelled by what their documentation
    promises.  The matrix built from [(data, (row, col))] holds in cell
    [(a, b)] the sum of the entries given for [(a, b)], and nothing
    where none was given; an index outside the shape is refused.
    [shortest_path] is modelled by the Floyd-Warshall recurrence on the
    dense matrix: distance [0] on the diagonal, [inf] ([None]) where no
    path exists, predecessor [-9999] where there is none. *)

Definition cell {A} (d : A) (m : list (list A)) (i j : nat) : A :=
  default d (row ← m !! i; row !! j).

Definition mk_matrix {A} (n : nat) (f : nat -> nat -> A) : list (list A) :=
  (fun i => f i <$> seq 0 n) <$> seq 0 n.

Definition csr_cell (entries : list (F * (Z * Z))) (i j : nat) : option F :=
  fold_left (fun acc '(c, (a, b)) =>
               if (a =? Z.of_nat i) && (b =? Z.of_nat j) then
                 Some (match acc with None => c | Some o => fadd o c end)
               else acc)
            entries None.

Definition csr_matrix (data : list F) (row col : list Z) (num : Z)
  : result (list (list (option F))) :=
  let entries := zip data (zip row col) in
  if forallb (fun '(_, (a, b)) =>
                (0 <=? a) && (a <? num) && (0 <=? b) && (b <? num)) entries
  then Ok (mk_matrix (Z.to_nat num) (csr_cell entries))
  else Raise ValueError.

Definition NO_PRED : Z := -9999.

Definition fw_relax (D : list (list (option F))) (P : list (list Z))
    (k i j : nat) : option F * Z :=
  match cell None D i k, cell None D k j with
  | Some a, Some b =>
      let c := fadd a b in
      match cell None D i j with
      | Some d => if fltb c d then (Some c, cell NO_PRED P k j)
                  else (Some d, cell NO_PRED P i j)
      | None => (Some c, cell NO_PRED P k j)
      end
  | _, _ => (cell None D i j, cell NO_PRED P i j)
  end.

Definition fw_step (n : nat) (st : list (list (option F)) * list (list Z))
    (k : nat) : list (list (option F)) * list (list Z) :=
  let '(D, P) := st in
  (mk_matrix n (fun i j => fst (fw_relax D P k i j)),
   mk_matrix n (fun i j => snd (fw_relax D P k i j))).

Definition fw_init (graph : list (list (option F)))
  : list (list (option F)) * list (list Z) :=
  let n := length graph in
  (mk_matrix n (fun i j => if Nat.eqb i j then Some f0 else cell None graph i j),
   mk_matrix n (fun i j => if Nat.eqb i j then NO_PRED
                           else match cell None graph i j with
                                | Some _ => Z.of_nat i
                                | None => NO_PRED
                                end)).

Definition shortest_path (graph : list (list (option F)))
  : list (list (option F)) * list (list Z) :=
  let n := length graph in
  fold_left (fw_step n) (seq 0 n) (fw_init graph).

(** A [HwyNetwork] as [__init__] and [readDTANetwork] leave it: the
    network is set, the routing fields are not yet (empty here, [None]
    in Python; a query on them raises in both). *)
Definition new_HwyNetwork (net : Network) : HwyNetwork :=
  {| net := net; n2i := ∅; i2n := ∅; skim := []; pred := [] |}.

(** Body of the loop over the nodes (STEP 1). *)
Definition index_node (st : gmap Z Z * gmap Z Z * Z) (node_id : Z)
  : gmap Z Z * gmap Z Z * Z :=
  let '(n2i, i2n, i) := st in
  (<[node_id := i]> n2i, <[i := node_id]> i2n, i + 1).

(** Body of the loop over the links (STEP 2). *)
Definition append_link (n2i : gmap Z Z) (st : list Z * list Z * list F)
    (link : RoadLink) : result (list Z * list Z * list F) :=
  let '(anodes, bnodes, costs) := st in
  a <- dict_getitem n2i (getStartNodeId link) ;;
  b <- dict_getitem n2i (getEndNodeId link) ;;
  let cost := fmul f60 (getFreeFlowTTInMin link) in
  Ok (anodes ++ [a], bnodes ++ [b], costs ++ [cost]).

Definition initializeShortestPaths (self : HwyNetwork) : result HwyNetwork :=
  (* STEP 1 *)
  let '(n2i, i2n, i) :=
    fold_left index_node (iterNodes (net self)) (∅, ∅, 0) in
  let num_nodes := i + 1 in
  (* STEP 2 *)
  '(anodes, bnodes, costs) <-
    foldM (append_link n2i) ([], [], []) (iterRoadLinks (net self)) ;;
  graph <- csr_matrix costs anodes bnodes num_nodes ;;
  (* STEP 3 *)
  let '(skim, pred) := shortest_path graph in
  Ok {| net := net self; n2i := n2i; i2n := i2n; skim := skim; pred := pred |}.

(** *** Path resolution *)

(** The [while (j != start)] loop of [getShortestPathNodeSequence]. *)
Fixpoint trace_path (fuel : nat) (self : HwyNetwork) (start j : Z)
    (path : list (option Z)) : result (list (option Z)) :=
  if j =? start then Ok path
  else match fuel with
       | O => NoFuel
       | S fuel' =>
           node <- dict_getitem (i2n self) j ;;
           j' <- np_getitem2 (pred self) start j ;;
           trace_path fuel' self start j' (path ++ [Some node])
       end.

(** The result is a list of node ids, or the list [[None]]. *)
Definition getShortestPathNodeSequence (fuel : nat) (self : HwyNetwork)
    (startNode endNode : Z) : result (list (option Z)) :=
  start <- dict_getitem (n2i self) startNode ;;
  end' <- dict_getitem (n2i self) endNode ;;
  cost <- np_getitem2 (skim self) start end' ;;
  if isinf cost then Ok [None]
  else
    path <- trace_path fuel self start end' [] ;;
    node <- dict_getitem (i2n self) start ;;
    Ok (rev (path ++ [Some node])).

(** [range(lo, hi)] *)
Definition py_range2 (lo hi : nat) : list Z :=
  map Z.of_nat (seq lo (hi - lo)).

(** The result is a one-element list: a path, or [None]. *)
Definition getPaths (fuel : nat) (self : HwyNetwork) (s1 s2 : State)
  : result (list (option Path)) :=
  if link_id s1 =? link_id s2 then
    Ok [Some {| start := s1; links := [link_id s1]; end_ := s2 |}]
  else
    l1 <- getLinkForId (net self) (link_id s1) ;;
    let startNode := getEndNodeId l1 in
    l2 <- getLinkForId (net self) (link_id s2) ;;
    let endNode := getStartNodeId l2 in
    si <- dict_getitem (n2i self) startNode ;;
    ei <- dict_getitem (n2i self) endNode ;;
    cost <- np_getitem2 (skim self) si ei ;;
    if isinf cost then Ok [None]
    else
      nodeSeq <- getShortestPathNodeSequence fuel self startNode endNode ;;
      linkSeq <-
        foldM (fun linkSeq i =>
                 a <- py_getitem nodeSeq (i - 1) ;;
                 b <- py_getitem nodeSeq i ;;
                 link <- match a, b with
                         | Some a, Some b => getLinkForNodeIdPair (net self) a b
                         | _, _ => Raise DtaError
                         end ;;
                 Ok (linkSeq ++ [getId link]))
              [link_id s1] (py_range2 1 (length nodeSeq)) ;;
      let linkSeq := linkSeq ++ [link_id s2] in
      Ok [Some {| start := s1; links := linkSeq; end_ := s2 |}].

(** [mm.path_inference.structures.StateCollection] *)
Record StateCollection : Type := {
  states : list State
}.

(** The innermost loop, [for path in ps], for the pair [(i1, i2)]. *)
Definition append_paths (i1 i2 : Z)
    (acc : list (Z * Z) * list (Z * Z) * list (option Path) * Z)
    (ps : list (option Path))
  : result (list (Z * Z) * list (Z * Z) * list (option Path) * Z) :=
  foldM (fun '(trans1, trans2, paths, num_paths) path =>
           Ok (trans1 ++ [(i1, num_paths)],
               trans2 ++ [(num_paths, i2)],
               paths ++ [path],
               num_paths + 1))
        acc ps.

(** Body of the loop [for i2 in range(n2)]. *)
Definition pair_body (fuel : nat) (self : HwyNetwork)
    (sc1 sc2 : StateCollection) (i1 : Z)
    (acc : list (Z * Z) * list (Z * Z) * list (option Path) * Z) (i2 : Z)
  : result (list (Z * Z) * list (Z * Z) * list (option Path) * Z) :=
  s1 <- py_getitem (states sc1) i1 ;;
  s2 <- py_getitem (states sc2) i2 ;;
  ps <- getPaths fuel self s1 s2 ;;
  append_paths i1 i2 acc ps.

Definition getPathsBetweenCollections (fuel : nat) (self : HwyNetwork)
    (sc1 sc2 : StateCollection)
  : result (list (Z * Z) * list (option Path) * list (Z * Z)) :=
  let n1 := length (states sc1) in
  let n2 := length (states sc2) in
  '(trans1, trans2, paths, num_paths) <-
    foldM (fun acc i1 =>
             foldM (pair_body fuel self sc1 sc2 i1) acc (py_range n2))
          ([], [], [], 0) (py_range n1) ;;
  Ok (trans1, paths, trans2).

End HwyNetwork.

Arguments RoadLink F : clear implicits.
Arguments Network F : clear implicits.
Arguments State F : clear implicits.
Arguments Path F : clear implicits.
Arguments HwyNetwork F : clear implicits.
Arguments StateCollection F : clear implicits.

(** ** The remaining functions of the module *)

Section Projection.

Context {F : Type} `{FloatOps F}.

(** A decimal literal [n / 10^k] of the source, as the correctly rounded
    quotient of two integers. *)
Definition fdec (n : Z) (scale : Z) : F := fquot (fof_int n) (fof_int scale).

(** [isInSanFranciscoBox(x_y)] *)
Definition isInSanFranciscoBox (x_y : F * F) : bool :=
  let '(x, y) := x_y in
  if fltb (fdec 597976210716 100000) x
     && fltb (fdec 207490826203 100000) y
     && fltb x (fdec 602756722925 100000)
     && fltb y (fdec 213088756530 100000)
  then true
  else false.

(** A GPS position, as far as [project] reads it. *)
Record GPSPosition : Type := {
  gps_x : F;
  gps_y : F
}.

(** consider up to this many links when projecting *)
Definition PROJECT_NUM_LINKS : Z := 5.

(** all links within this threshold will be considered when projecting *)
Definition PROJECT_DIST_THRESHOLD : F := fof_int 100.

(** [project(gps_pos)].  [findNRoadLinksNearestCoords] is a method of
    [dta.Network]; it is a parameter here.  It returns tuples
    [(roadlink, distance, t)]. *)
Definition project
    (findNRoadLinksNearestCoords :
       Network F -> F -> F -> Z -> F -> list (RoadLink F * F * F))
    (self : HwyNetwork F) (gps_pos : GPSPosition) : list (State F) :=
  let return_tuple :=
    findNRoadLinksNearestCoords (net self) (gps_x gps_pos) (gps_y gps_pos)
      PROJECT_NUM_LINKS PROJECT_DIST_THRESHOLD in
  foldl (fun states rt =>
           let '(roadlink, distance, t) := rt in
           let offset := fmul t (getLengthInCoordinateUnits roadlink) in
           let state := {| link_id := getId roadlink; offset := offset;
                           distFromGPS := Some distance |} in
           states ++ [state])
        [] return_tuple.

(** [getPathsUsingDtaAnywayImplementation(s1, s2)].
    [dta.Algorithms.ShortestPaths.getShortestPathBetweenLinks] is a
    function of the [dta] library; it is a parameter here, returning the
    links of the path or [None]. *)
Definition getPathsUsingDtaAnywayImplementation
    (getShortestPathBetweenLinks :
       Network F -> RoadLink F -> RoadLink F -> option (list (RoadLink F)))
    (self : HwyNetwork F) (s1 s2 : State F)
  : result (list (option (Path F))) :=
  link1 <- getLinkForId (net self) (link_id s1) ;;
  link2 <- getLinkForId (net self) (link_id s2) ;;
  match getShortestPathBetweenLinks (net self) link1 link2 with
  | None => Ok [None]
  | Some links =>
      let link_ids := foldl (fun link_ids link => link_ids ++ [getId link])
                            [] links in
      Ok [Some {| start := s1; links := link_ids; end_ := s2 |}]
  end.

End Projection.

Arguments GPSPosition F : clear implicits.

(** ** Vocabulary of the properties *)

Section Vocabulary.

Context {F : Type} `{FloatOps F}.

(** The link id is one of the network's. *)
Definition link_known (net : Network F) (lid : Z) : bool :=
  match getLinkForId net lid with
  | Ok _ => true
  | _ => false
  end.

(** The state lies on a link of the network whose length is not zero. *)
Definition state_on_network (net : Network F) (s : State F) : bool :=
  match getLinkForId net (link_id s) with
  | Ok l => negb (fis_zero (getLengthInCoordinateUnits l))
  | _ => false
  end.

(** A path the allocator accepts: at least one link, every link known,
    both end states on the network. *)
Definition path_on_network (net : Network F) (p : Path F) : bool :=
  match links p with [] => false | _ => true end
  && forallb (link_known net) (links p)
  && state_on_network net (start p)
  && state_on_network net (end_ p).

(** A valid state: its link is in the network, has positive length, and
    the offset lies in [0, length]. *)
Definition state_in_link (net : Network F) (s : State F) : bool :=
  match getLinkForId net (link_id s) with
  | Ok l =>
      fltb f0 (getLengthInCoordinateUnits l)
      && negb (fltb (offset s) f0)
      && negb (fltb (getLengthInCoordinateUnits l) (offset s))
  | _ => false
  end.

(** Free-flow seconds of link [lid] over the fraction [r]. *)
Definition ff_time (net : Network F) (lid : Z) (r : F) : F :=
  match getLinkForId net lid with
  | Ok l => fmul (fmul f60 (getFreeFlowTTInMin l)) r
  | _ => f0
  end.

(** The offset ratio of a state on the network. *)
Definition offset_ratio (net : Network F) (s : State F) : F :=
  match getLinkForId net (link_id s) with
  | Ok l => fquot (offset s) (getLengthInCoordinateUnits l)
  | _ => f0
  end.

(** The list [getPathTraversalRatios] builds for [n] links. *)
Definition ratios_of (n : nat) (r1 r2 : F) : list F :=
  let ratios := <[0%nat := fsub f1 r1]> (replicate n f1) in
  <[(n - 1)%nat := fsub (default f1 (ratios !! (n - 1)%nat)) (fsub f1 r2)]> ratios.

(** Free-flow seconds of every link of a path, weighted by its ratio. *)
Definition ff_times (net : Network F) (lids : list Z) (rs : list F) : list F :=
  zip_with (ff_time net) lids rs.

(** An array of [n] rows and [n] columns. *)
Definition square {B} (n : nat) (m : list (list B)) : Prop :=
  length m = n /\ Forall (fun row => length row = n) m.

(** Vertex [v] has no path to or from any other vertex. *)
Definition isolated (n : nat) (st : list (list (option F)) * list (list Z))
    (v : nat) : Prop :=
  forall i j : nat, (i < n)%nat -> (j < n)%nat -> i <> j -> i = v \/ j = v ->
    cell None st.1 i j = None /\ cell NO_PRED st.2 i j = NO_PRED.

(** Every vertex is at finite distance of itself. *)
Definition reflexive (n : nat) (st : list (list (option F)) * list (list Z))
  : Prop :=
  forall i : nat, (i < n)%nat -> is_Some (cell None st.1 i i).

(** Every link starts and ends at a node of the network. *)
Definition links_between_nodes (net0 : Network F) : bool :=
  forallb (fun l => bool_decide (getStartNodeId l ∈ iterNodes net0)
                    && bool_decide (getEndNodeId l ∈ iterNodes net0))
          (iterRoadLinks net0).

(** What [initializeShortestPaths] leaves in the fields, for a network of
    [N] nodes. *)
Record initialized (self hn : HwyNetwork F) : Prop := {
  init_net : net hn = net self;
  (* the indices 0 .. N-1 name the nodes, in order *)
  init_i2n : forall k : nat, (k < length (iterNodes (net self)))%nat ->
      i2n hn !! Z.of_nat k = iterNodes (net self) !! k;
  init_i2n_dom : forall z : Z,
      z < 0 \/ Z.of_nat (length (iterNodes (net self))) <= z ->
      i2n hn !! z = None;
  init_n2i : forall id z, n2i hn !! id = Some z ->
      0 <= z < Z.of_nat (length (iterNodes (net self)))
      /\ iterNodes (net self) !! Z.to_nat z = Some id;
  init_n2i_dom : forall id, id ∈ iterNodes (net self) ->
      is_Some (n2i hn !! id);
  (* the matrices have N+1 rows and columns *)
  init_skim : square (S (length (iterNodes (net self)))) (skim hn);
  init_pred : square (S (length (iterNodes (net self)))) (pred hn);
  init_refl : reflexive (S (length (iterNodes (net self)))) (skim hn, pred hn);
  (* a vertex no link touches is cut off from all others *)
  init_isolated : forall v : nat,
      Forall (fun l => n2i hn !! getStartNodeId l <> Some (Z.of_nat v)
                       /\ n2i hn !! getEndNodeId l <> Some (Z.of_nat v))
             (iterRoadLinks (net self)) ->
      isolated (S (length (iterNodes (net self)))) (skim hn, pred hn) v
}.

(** Walking [pred[start, *]] backward from index [j] to [start]: the
    list holds the ids of the nodes met, [j] first, [start] left out. *)
Inductive pred_walk (self : HwyNetwork F) (start : Z) : Z -> list Z -> Prop :=
| walk_done : pred_walk self start start []
| walk_step (j j' node : Z) (w : list Z) :
    j <> start ->
    i2n self !! j = Some node ->
    np_getitem2 (pred self) start j = Ok j' ->
    pred_walk self start j' w ->
    pred_walk self start j (node :: w).

(** [getPaths] raises for no pair of states of the two collections. *)
Definition all_pairs_resolve (fuel : nat) (self : HwyNetwork F)
    (sc1 sc2 : StateCollection F) : bool :=
  forallb (fun s1 =>
             forallb (fun s2 =>
                        match getPaths fuel self s1 s2 with
                        | Ok _ => true
                        | _ => false
                        end)
                     (states sc2))
          (states sc1).

(** The pair [(i1, i2)] has its entry at position [i1 * n2 + i2] of the
    three lists. *)
Definition entry_of_pair (fuel : nat) (self : HwyNetwork F)
    (sc1 sc2 : StateCollection F) (trans1 trans2 : list (Z * Z))
    (paths : list (option (Path F))) (i1 i2 : nat) : Prop :=
  exists s1 s2 p,
    states sc1 !! i1 = Some s1 /\
    states sc2 !! i2 = Some s2 /\
    getPaths fuel self s1 s2 = Ok [p] /\
    let k := (i1 * length (states sc2) + i2)%nat in
    paths !! k = Some p /\
    trans1 !! k = Some (Z.of_nat i1, Z.of_nat k) /\
    trans2 !! k = Some (Z.of_nat k, Z.of_nat i2).

(** The state of the loops of [getPathsBetweenCollections] when [k1]
    rows are done and [k2] pairs of row [k1]. *)
Definition loop_inv (fuel : nat) (self : HwyNetwork F)
    (sc1 sc2 : StateCollection F) (k1 k2 : nat)
    (acc : list (Z * Z) * list (Z * Z) * list (option (Path F)) * Z) : Prop :=
  let '(trans1, trans2, paths, num_paths) := acc in
  num_paths = Z.of_nat (length paths) /\
  length trans1 = length paths /\
  length trans2 = length paths /\
  length paths = (k1 * length (states sc2) + k2)%nat /\
  forall i1 i2 : nat, (i2 < length (states sc2))%nat ->
    (i1 < k1)%nat \/ (i1 = k1 /\ (i2 < k2)%nat) ->
    entry_of_pair fuel self sc1 sc2 trans1 trans2 paths i1 i2.

End Vocabulary.

(** Sum of a list of allocations. *)
Definition Qsum (l : list Q) : Q := fold_right Qplus 0%Q l.

(** Equality of two lists of rationals, element by element. *)
Definition Qlist_eq (l1 l2 : list Q) : Prop := Forall2 Qeq l1 l2.

(** ** Scenarios *)

Section Scenarios.

Context {F : Type} `{FloatOps F}.

Definition unwrap {A} (r : result A) (d : A) : A :=
  match r with
  | Ok a => a
  | _ => d
  end.

(** Nodes A, B, C (ids 1, 2, 3); link A->B (id 10, 1 minute) and link
    B->C (id 20, 2 minutes). *)
Definition link_AB : RoadLink F :=
  {| getId := 10; getStartNodeId := 1; getEndNodeId := 2;
     getLengthInCoordinateUnits := fof_int 100;
     getFreeFlowTTInMin := fof_int 1 |}.

Definition link_BC : RoadLink F :=
  {| getId := 20; getStartNodeId := 2; getEndNodeId := 3;
     getLengthInCoordinateUnits := fof_int 200;
     getFreeFlowTTInMin := fof_int 2 |}.

Definition abc_net : Network F :=
  {| iterNodes := [1; 2; 3]; iterRoadLinks := [link_AB; link_BC] |}.

Definition abc : HwyNetwork F :=
  unwrap (initializeShortestPaths (new_HwyNetwork abc_net))
         (new_HwyNetwork abc_net).

(** Half way along A->B, and half way along B->C. *)
Definition state1 : State F :=
  {| link_id := 10; offset := fof_int 50; distFromGPS := None |}.

Definition state2 : State F :=
  {| link_id := 20; offset := fof_int 100; distFromGPS := None |}.

Definition path12 : Path F :=
  {| start := state1; links := [10; 20]; end_ := state2 |}.

(** Two fixes on A->B, the second one behind the first. *)
Definition state_far : State F :=
  {| link_id := 10; offset := fof_int 90; distFromGPS := None |}.

Definition state_near : State F :=
  {| link_id := 10; offset := fof_int 10; distFromGPS := None |}.

Definition path_backward : Path F :=
  {| start := state_far; links := [10]; end_ := state_near |}.

(** Three links in a row whose free-flow time is 1/10000 minute each. *)
Definition crawl_link (id a b : Z) : RoadLink F :=
  {| getId := id; getStartNodeId := a; getEndNodeId := b;
     getLengthInCoordinateUnits := fof_int 100;
     getFreeFlowTTInMin := fquot (fof_int 1) (fof_int 10000) |}.

Definition crawl_net : Network F :=
  {| iterNodes := [1; 2; 3; 4];
     iterRoadLinks := [crawl_link 1 1 2; crawl_link 2 2 3; crawl_link 3 3 4] |}.

Definition crawl : HwyNetwork F := new_HwyNetwork crawl_net.

Definition crawl_path : Path F :=
  {| start := {| link_id := 1; offset := fof_int 0; distFromGPS := None |};
     links := [1; 2; 3];
     end_ := {| link_id := 3; offset := fof_int 100; distFromGPS := None |} |}.

(** A network without nodes and links. *)
Definition empty_net : Network F :=
  {| iterNodes := []; iterRoadLinks := [] |}.

End Scenarios.

(** ** Vocabulary and scenarios of the further properties *)

Section MoreVocabulary.

Context {F : Type} `{FloatOps F}.

(** Every link of the list is known and its free-flow time is not
    negative. *)
Definition free_flow_nonneg (net0 : Network F) (lids : list Z) : bool :=
  forallb (fun lid =>
             match getLinkForId net0 lid with
             | Ok l => negb (fltb (getFreeFlowTTInMin l) f0)
             | _ => false
             end)
          lids.

(** Some link starts or ends at a node that [iterNodes] does not list. *)
Definition has_dangling_link (net0 : Network F) : bool :=
  existsb (fun l => negb (bool_decide (getStartNodeId l ∈ iterNodes net0))
                    || negb (bool_decide (getEndNodeId l ∈ iterNodes net0)))
          (iterRoadLinks net0).

(** The tuple [rt] of [findNRoadLinksNearestCoords] holds a link of
    positive length and a fraction in [0, 1]. *)
Definition candidate_in_range (rt : RoadLink F * F * F) : bool :=
  let '(roadlink, _, t) := rt in
  fltb f0 (getLengthInCoordinateUnits roadlink)
  && negb (fltb t f0) && negb (fltb f1 t).

(** The tuple [rt] holds a link as the network has it. *)
Definition candidate_of_network (net0 : Network F) (rt : RoadLink F * F * F)
  : Prop :=
  getLinkForId net0 (getId rt.1.1) = Ok rt.1.1.

(** The link that joins the nodes at positions [k] and [k+1] of a node
    sequence. *)
Definition joins (net0 : Network F) (nodeSeq : list (option Z)) (k : nat)
    (lid : Z) : Prop :=
  exists a b l,
    nodeSeq !! k = Some (Some a) /\
    nodeSeq !! S k = Some (Some b) /\
    getLinkForNodeIdPair net0 a b = Ok l /\
    getId l = lid /\ getStartNodeId l = a /\ getEndNodeId l = b.

(** Four nodes in a row (ids 1 .. 4), links 10, 20, 30 of one minute. *)
Definition chain_link (id a b : Z) : RoadLink F :=
  {| getId := id; getStartNodeId := a; getEndNodeId := b;
     getLengthInCoordinateUnits := fof_int 100;
     getFreeFlowTTInMin := fof_int 1 |}.

Definition chain_net : Network F :=
  {| iterNodes := [1; 2; 3; 4];
     iterRoadLinks := [chain_link 10 1 2; chain_link 20 2 3; chain_link 30 3 4] |}.

Definition chain : HwyNetwork F :=
  unwrap (initializeShortestPaths (new_HwyNetwork chain_net))
         (new_HwyNetwork chain_net).

Definition chain_state (lid : Z) : State F :=
  {| link_id := lid; offset := fof_int 50; distFromGPS := None |}.

(** A link to node 9, which the network does not list. *)
Definition dangling_net : Network F :=
  {| iterNodes := [1; 2];
     iterRoadLinks := [chain_link 10 1 2; chain_link 20 2 9] |}.

(** A finder that sees link A->B at 3 feet, a quarter along. *)
Definition find_AB (_ : Network F) (_ _ : F) (_ : Z) (_ : F)
  : list (RoadLink F * F * F) :=
  [(link_AB, fof_int 3, fquot (fof_int 1) (fof_int 4))].

End MoreVocabulary.

(** ** Reasoning about the result monad and Python sequences *)

Lemma bind_Ok {A B} (r : result A) (k : A -> result B) (b : B) :
  bind r k = Ok b -> exists a, r = Ok a /\ k a = Ok b.
Proof. destruct r; simpl; intros E; try discriminate. eauto. Qed.

Lemma py_index_nat (n i : nat) :
  (i < n)%nat -> py_index n (Z.of_nat i) = Some i.
Proof.
  intros Hi. unfold py_index.
  replace (0 <=? Z.of_nat i) with true by (symmetry; apply Z.leb_le; lia).
  replace (Z.of_nat i <? Z.of_nat n) with true by (symmetry; apply Z.ltb_lt; lia).
  simpl. by rewrite Nat2Z.id.
Qed.

Lemma py_getitem_nat {A} (l : list A) (i : nat) (x : A) :
  l !! i = Some x -> py_getitem l (Z.of_nat i) = Ok x.
Proof.
  intros Hx. unfold py_getitem.
  rewrite py_index_nat by (eapply lookup_lt_Some; eauto). by rewrite Hx.
Qed.

Lemma py_getitem_Ok_inv {A} (l : list A) (i : Z) (x : A) :
  py_getitem l i = Ok x -> exists k, py_index (length l) i = Some k /\ l !! k = Some x.
Proof.
  unfold py_getitem. destruct (py_index (length l) i) as [k|]; [|discriminate].
  destruct (l !! k) as [y|] eqn:E; [|discriminate].
  intros [= ->]. eauto.
Qed.

Lemma py_setitem_nat {A} (l : list A) (i : nat) (x : A) :
  (i < length l)%nat -> py_setitem l (Z.of_nat i) x = Ok (<[i := x]> l).
Proof. intros Hi. unfold py_setitem. by rewrite py_index_nat. Qed.

Lemma py_range_S (n : nat) : py_range (S n) = py_range n ++ [Z.of_nat n].
Proof. unfold py_range. by rewrite seq_S, map_app. Qed.

Lemma foldM_app {A S} (body : S -> A -> result S) (acc : S) (xs ys : list A) :
  foldM body acc (xs ++ ys) = bind (foldM body acc xs) (fun a => foldM body a ys).
Proof.
  revert acc. induction xs as [|x xs IH]; intros acc; simpl; [done|].
  destruct (body acc x); simpl; auto.
Qed.

(** ** Well-formed inputs *)

Section Validity.

Context {F : Type} `{FloatOps F}.

Lemma getLinkOffsetRatio_on_network (self : HwyNetwork F) (s : State F) :
  state_on_network (net self) s = true ->
  getLinkOffsetRatio self s = Ok (offset_ratio (net self) s).
Proof.
  unfold state_on_network, getLinkOffsetRatio, offset_ratio, fdiv.
  destruct (getLinkForId (net self) (link_id s)) as [l| |]; try discriminate.
  simpl. intros Hz. apply negb_true_iff in Hz. by rewrite Hz.
Qed.

Lemma getLinkOffsetRatio_Ok_inv (self : HwyNetwork F) (s : State F) (r : F) :
  getLinkOffsetRatio self s = Ok r ->
  state_on_network (net self) s = true /\ r = offset_ratio (net self) s.
Proof.
  unfold state_on_network, getLinkOffsetRatio, offset_ratio, fdiv.
  destruct (getLinkForId (net self) (link_id s)) as [l| |]; try discriminate.
  simpl. destruct (fis_zero (getLengthInCoordinateUnits l)); simpl;
    [discriminate|]. by intros [= <-].
Qed.

Lemma ratios_of_length n r1 r2 : length (ratios_of n r1 r2) = n.
Proof. unfold ratios_of. by rewrite !length_insert, length_replicate. Qed.

Lemma getPathTraversalRatios_on_network (self : HwyNetwork F) (p : Path F) :
  links p <> [] ->
  state_on_network (net self) (start p) = true ->
  state_on_network (net self) (end_ p) = true ->
  getPathTraversalRatios self p =
    Ok (ratios_of (length (links p))
          (offset_ratio (net self) (start p))
          (offset_ratio (net self) (end_ p))).
Proof.
  intros Hne H1 H2. unfold getPathTraversalRatios.
  rewrite (getLinkOffsetRatio_on_network _ _ H1),
          (getLinkOffsetRatio_on_network _ _ H2). simpl.
  destruct (links p) as [|lid lids]; [done|]. simpl length.
  set (r1 := offset_ratio _ (start p)). set (r2 := offset_ratio _ (end_ p)).
  change 0 with (Z.of_nat 0).
  rewrite (py_getitem_nat _ 0 f1) by done. simpl bind.
  replace (Z.of_nat (S (length lids)) - 1) with (Z.of_nat (length lids)) by lia.
  change (fsub f1 r1 :: replicate (length lids) f1)
    with (<[0%nat := fsub f1 r1]> (replicate (S (length lids)) f1)).
  set (rs := <[0%nat := fsub f1 r1]> (replicate (S (length lids)) f1)).
  assert (Hlen : length rs = S (length lids))
    by (unfold rs; by rewrite length_insert, length_replicate).
  destruct (lookup_lt_is_Some_2 rs (length lids)) as [x Hx]; [lia|].
  rewrite (py_getitem_nat _ _ _ Hx). simpl bind.
  rewrite py_setitem_nat by lia. simpl bind.
  unfold ratios_of. fold rs. simpl Nat.sub. rewrite Nat.sub_0_r.
  by rewrite Hx.
Qed.

Lemma getPathTraversalRatios_Ok_inv (self : HwyNetwork F) (p : Path F) rs :
  getPathTraversalRatios self p = Ok rs ->
  links p <> [] /\
  state_on_network (net self) (start p) = true /\
  state_on_network (net self) (end_ p) = true.
Proof.
  unfold getPathTraversalRatios. intros E.
  apply bind_Ok in E as (r1 & E1 & E).
  apply bind_Ok in E as (x0 & E0 & E).
  apply bind_Ok in E as (rs1 & _ & E).
  apply bind_Ok in E as (r2 & E2 & _).
  apply getLinkOffsetRatio_Ok_inv in E1 as [E1 _].
  apply getLinkOffsetRatio_Ok_inv in E2 as [E2 _].
  split; [|done].
  intros Hnil. rewrite Hnil in E0. discriminate.
Qed.

End Validity.

(** ** The two loops of the allocator *)

Section Allocation.

Context {F : Type} `{FloatOps F}.

Lemma link_known_Ok (net : Network F) lid :
  link_known net lid = true -> exists l, getLinkForId net lid = Ok l.
Proof.
  unfold link_known. destruct (getLinkForId net lid); try discriminate; eauto.
Qed.

Lemma ff_times_length net lids rs :
  length rs = length lids -> length (ff_times net lids rs) = length lids.
Proof. intros E. unfold ff_times. rewrite length_zip_with. lia. Qed.

Lemma ff_times_lookup net lids rs k lid r :
  lids !! k = Some lid -> rs !! k = Some r ->
  ff_times net lids rs !! k = Some (ff_time net lid r).
Proof.
  intros Hl Hr. unfold ff_times. rewrite lookup_zip_with, Hl. simpl.
  by rewrite Hr.
Qed.

(** The summation loop of [getPathFreeFlowTTInSeconds], run over the
    first [k] links. *)
Lemma ff_loop_prefix (net0 : Network F) (lids : list Z) (rs : list F) (k : nat) :
  forallb (link_known net0) lids = true ->
  length rs = length lids ->
  (k <= length lids)%nat ->
  foldM (fun tot_tt i =>
           lid <- py_getitem lids i ;;
           link <- getLinkForId net0 lid ;;
           r <- py_getitem rs i ;;
           Ok (fadd tot_tt (fmul (fmul f60 (getFreeFlowTTInMin link)) r)))
        f0 (py_range k)
  = Ok (fold_left fadd (take k (ff_times net0 lids rs)) f0).
Proof.
  intros Hk Hlen. induction k as [|k IH]; intros Hle; [done|].
  rewrite py_range_S, foldM_app, IH by lia. simpl.
  destruct (lookup_lt_is_Some_2 lids k) as [lid Hlid]; [lia|].
  destruct (lookup_lt_is_Some_2 rs k) as [r Hr]; [lia|].
  rewrite (py_getitem_nat _ _ _ Hlid). simpl.
  assert (Hkn : link_known net0 lid = true).
  { rewrite forallb_forall in Hk. apply Hk, list_elem_of_In.
    eapply list_elem_of_lookup_2; eauto. }
  pose proof (ff_times_lookup net0 _ _ _ _ _ Hlid Hr) as Hff.
  destruct (link_known_Ok _ _ Hkn) as [l Hl].
  unfold ff_time in Hff. rewrite Hl in *. simpl.
  rewrite (py_getitem_nat _ _ _ Hr). simpl.
  by rewrite (take_S_r _ _ _ Hff), fold_left_app.
Qed.

(** The proportional branch of the allocation loop, over the first [k]
    links. *)
Lemma alloc_loop_proportional (net0 : Network F) (lids : list Z) (rs : list F)
    (tot_tt tot_ff_time : F) (share1 : result F) (k : nat) :
  forallb (link_known net0) lids = true ->
  length rs = length lids ->
  fltb tot_ff_time f0_1 = false ->
  fis_zero tot_ff_time = false ->
  (k <= length lids)%nat ->
  foldM (fun link_tt i =>
           tt <- (if fltb tot_ff_time f0_1 then
                    share <- share1 ;;
                    Ok (fmul tot_tt share)
                  else
                    lid <- py_getitem lids i ;;
                    link <- getLinkForId net0 lid ;;
                    r <- py_getitem rs i ;;
                    let ff_time := fmul (fmul f60 (getFreeFlowTTInMin link)) r in
                    share <- fdiv ff_time tot_ff_time ;;
                    Ok (fmul tot_tt share)) ;;
           Ok (link_tt ++ [tt]))
        [] (py_range k)
  = Ok (map (fun ff => fmul tot_tt (fquot ff tot_ff_time))
            (take k (ff_times net0 lids rs))).
Proof.
  intros Hk Hlen Hlt Hz. induction k as [|k IH]; intros Hle; [done|].
  rewrite py_range_S, foldM_app, IH by lia. simpl. rewrite Hlt.
  destruct (lookup_lt_is_Some_2 lids k) as [lid Hlid]; [lia|].
  destruct (lookup_lt_is_Some_2 rs k) as [r Hr]; [lia|].
  rewrite (py_getitem_nat _ _ _ Hlid). simpl.
  assert (Hkn : link_known net0 lid = true).
  { rewrite forallb_forall in Hk. apply Hk, list_elem_of_In.
    eapply list_elem_of_lookup_2; eauto. }
  pose proof (ff_times_lookup net0 _ _ _ _ _ Hlid Hr) as Hff.
  destruct (link_known_Ok _ _ Hkn) as [l Hl].
  unfold ff_time in Hff. rewrite Hl in *. simpl.
  rewrite (py_getitem_nat _ _ _ Hr). simpl.
  unfold fdiv. rewrite Hz. simpl.
  by rewrite (take_S_r _ _ _ Hff), map_app.
Qed.

(** The equal-split branch: every iteration appends the same value. *)
Lemma alloc_loop_equal (other : Z -> result F)
    (tot_tt tot_ff_time share : F) (k : nat) :
  fltb tot_ff_time f0_1 = true ->
  foldM (fun link_tt i =>
           tt <- (if fltb tot_ff_time f0_1 then
                    share <- Ok share ;;
                    Ok (fmul tot_tt share)
                  else other i) ;;
           Ok (link_tt ++ [tt]))
        [] (py_range k)
  = Ok (replicate k (fmul tot_tt share)).
Proof.
  intros Hlt. induction k as [|k IH]; [done|].
  rewrite py_range_S, foldM_app, IH. simpl. rewrite Hlt. simpl.
  by rewrite <- replicate_S_end.
Qed.

End Allocation.

(** ** Exact arithmetic: properties for all inputs *)

Module Exact.

Local Open Scope Q_scope.

Lemma fold_left_Qplus (l : list Q) (a : Q) :
  fold_left Qplus l a == a + Qsum l.
Proof.
  revert a. induction l as [|x l IH]; intros a; simpl.
  - ring.
  - rewrite IH. ring.
Qed.

Lemma Qsum_app (l1 l2 : list Q) : Qsum (l1 ++ l2) == Qsum l1 + Qsum l2.
Proof.
  induction l1 as [|x l1 IH]; simpl.
  - ring.
  - rewrite IH. ring.
Qed.

Lemma Qsum_scaled (c t : Q) (l : list Q) :
  Qsum (map (fun ff => c * (ff / t)) l) == c * (Qsum l / t).
Proof.
  induction l as [|x l IH]; simpl.
  - unfold Qdiv. ring.
  - rewrite IH. unfold Qdiv. ring.
Qed.

Lemma Qsum_replicate (c : Q) (n : nat) :
  Qsum (replicate n c) == inject_Z (Z.of_nat n) * c.
Proof.
  induction n as [|n IH].
  - simpl. ring.
  - simpl replicate. simpl Qsum. fold (Qsum (replicate n c)). rewrite IH.
    rewrite Nat2Z.inj_succ. unfold Z.succ. rewrite inject_Z_plus. ring.
Qed.

Lemma fltb_Q_true (x y : Q) : fltb x y = true <-> x < y.
Proof.
  simpl. rewrite negb_true_iff. split.
  - intros Hb. apply Qnot_le_lt. intros Hle.
    apply Qle_bool_iff in Hle. congruence.
  - intros Hlt. destruct (Qle_bool y x) eqn:E; [|done].
    apply Qle_bool_iff in E. exfalso. eapply Qlt_not_le; eauto.
Qed.

Lemma fltb_Q_false (x y : Q) : fltb x y = false <-> y <= x.
Proof.
  simpl. rewrite negb_false_iff. apply Qle_bool_iff.
Qed.

Lemma fis_zero_Q_false (x : Q) : fis_zero x = false <-> ~ x == 0.
Proof.
  simpl. split.
  - intros Hb Hx. apply Qeq_bool_iff in Hx. congruence.
  - intros Hx. destruct (Qeq_bool x 0) eqn:E; [|done].
    apply Qeq_bool_iff in E. contradiction.
Qed.

Lemma inject_Z_pos_nonzero (n : nat) :
  (0 < n)%nat -> ~ inject_Z (Z.of_nat n) == 0.
Proof.
  intros Hn Hz. unfold Qeq in Hz. simpl in Hz. lia.
Qed.

(** What the allocator returns on a path of the network, and the sum of
    the allocations. *)
Lemma allocate_sum (self : HwyNetwork Q) (p : Path Q) (start_time end_time : Q) :
  path_on_network (net self) p = true ->
  exists ratios link_tt,
    getPathTraversalRatios self p = Ok ratios /\
    allocatePathTravelTimeToLinks self p start_time end_time
      = Ok (links p, ratios, link_tt) /\
    length link_tt = length (links p) /\
    Qsum link_tt == end_time - start_time.
Proof.
  unfold path_on_network. rewrite !andb_true_iff.
  intros [[[Hne Hkn] Hs] He].
  assert (Hne' : links p <> []) by (destruct (links p); [discriminate|done]).
  pose proof (getPathTraversalRatios_on_network self p Hne' Hs He) as Hr.
  set (rs := ratios_of _ _ _) in Hr.
  assert (Hlen : length rs = length (links p)) by apply ratios_of_length.
  set (ffs := ff_times (net self) (links p) rs).
  assert (Hfl : length ffs = length (links p)) by by apply ff_times_length.
  set (T := fold_left Qplus ffs 0).
  assert (HT : getPathFreeFlowTTInSeconds self p = Ok T).
  { unfold getPathFreeFlowTTInSeconds. rewrite Hr. cbn [bind].
    rewrite (ff_loop_prefix _ _ _ (length (links p)) Hkn Hlen) by lia.
    fold ffs. by rewrite firstn_all2 by lia. }
  exists rs.
  destruct (fltb T f0_1) eqn:Hlt;
    unfold allocatePathTravelTimeToLinks; rewrite Hr, HT; cbn [bind].
  - (* effectively stopped: equal shares *)
    assert (Hn : (0 < length (links p))%nat)
      by (destruct (links p); [done|simpl; lia]).
    pose proof (inject_Z_pos_nonzero _ Hn) as Hnz.
    unfold fdiv. change (@fof_int Q Q_ops) with inject_Z.
    rewrite (proj2 (fis_zero_Q_false _) Hnz).
    erewrite alloc_loop_equal by exact Hlt. cbn [bind].
    eexists. split; [done|]. split; [reflexivity|].
    split; [apply length_replicate|].
    rewrite Qsum_replicate. simpl. field. exact Hnz.
  - (* proportional to the free-flow times *)
    assert (HT01 : (1 # 10) <= T)
      by exact (proj1 (fltb_Q_false T (1 # 10)) Hlt).
    assert (HTnz : ~ T == 0) by lra.
    erewrite (alloc_loop_proportional _ _ _ _ _ _ (length (links p)) Hkn Hlen Hlt)
      by (apply fis_zero_Q_false; exact HTnz) || lia.
    fold ffs. rewrite firstn_all2 by lia. cbn [bind].
    eexists. split; [done|]. split; [reflexivity|].
    split; [by rewrite length_map|].
    change (fun ff : Q => fmul (fsub end_time start_time) (fquot ff T))
      with (fun ff : Q => (end_time - start_time) * (ff / T)).
    rewrite Qsum_scaled.
    assert (Hsum : Qsum ffs == T).
    { unfold T. rewrite fold_left_Qplus. ring. }
    rewrite Hsum. field. exact HTnz.
Qed.

End Exact.

(** ** Travel-time allocation: the properties *)

Section AllocationGeneric.

Context {F : Type} `{FloatOps F}.

(** A path whose free-flow time is below 0.1 seconds gets equal shares,
    whatever the arithmetic. *)
Lemma allocate_equal_split (self : HwyNetwork F) (p : Path F)
    (start_time end_time tot_ff_time : F) :
  getPathFreeFlowTTInSeconds self p = Ok tot_ff_time ->
  fltb tot_ff_time f0_1 = true ->
  fis_zero (fof_int (Z.of_nat (length (links p)))) = false ->
  exists ratios,
    getPathTraversalRatios self p = Ok ratios /\
    allocatePathTravelTimeToLinks self p start_time end_time
      = Ok (links p, ratios,
            replicate (length (links p))
              (fmul (fsub end_time start_time)
                    (fquot f1 (fof_int (Z.of_nat (length (links p))))))).
Proof.
  intros HT Hlt Hn.
  pose proof HT as HT'. unfold getPathFreeFlowTTInSeconds in HT'.
  apply bind_Ok in HT' as (rs & Hr & _).
  exists rs. split; [done|].
  unfold allocatePathTravelTimeToLinks. rewrite Hr, HT. cbn [bind].
  unfold fdiv. rewrite Hn.
  erewrite alloc_loop_equal by exact Hlt. done.
Qed.

(** Two states on the same link: the path is that link alone. *)
Lemma getPaths_same_link (fuel : nat) (self : HwyNetwork F) (s1 s2 : State F) :
  link_id s1 = link_id s2 ->
  getPaths fuel self s1 s2
    = Ok [Some {| start := s1; links := [link_id s1]; end_ := s2 |}].
Proof. intros E. unfold getPaths. by rewrite E, Z.eqb_refl. Qed.

End AllocationGeneric.

Import Exact.



Lemma Qsum_negative_Exists (l : list Q) :
  (Qsum l < 0)%Q -> Exists (fun t => (t < 0)%Q) l.
Proof.
  induction l as [|x l IH]; simpl; intros Hs.
  - exfalso. revert Hs. apply Qlt_irrefl.
  - destruct (Qlt_le_dec x 0) as [Hx|Hx]; [by left|].
    right. apply IH. lra.
Qed.



(** In binary64 the sums of the scenarios come out exact as well. *)
Lemma allocations_sum_binary64 :
  (exists a b,
     allocatePathTravelTimeToLinks (F := float) abc path12 0%float 90%float
       = Ok ([10; 20], [0.5; 0.5]%float, [a; b]) /\
     PrimFloat.add a b = 90%float) /\
  (exists a b c,
     allocatePathTravelTimeToLinks (F := float) crawl crawl_path 0%float 60%float
       = Ok ([1; 2; 3], [1; 1; 1]%float, [a; b; c]) /\
     PrimFloat.add (PrimFloat.add a b) c = 60%float).
Proof.
  split.
  - eexists _, _. split; vm_compute; reflexivity.
  - eexists _, _, _. split; vm_compute; reflexivity.
Qed.






(** C3. Nodes A, B, C; links A->B (60 s) and B->C (120 s); a state half
    way along each link.  The resolved path is [A->B, B->C], its
    traversal ratios are [0.5, 0.5], and 90 s observed are allocated as
    30 s and 60 s: in binary64 and in exact arithmetic. *)
Theorem three_node_scenario (fuel : nat) :
  (initializeShortestPaths (F := float) (new_HwyNetwork abc_net) = Ok abc /\
   getPaths (F := float) fuel abc state1 state2 = Ok [Some path12] /\
   getPathTraversalRatios (F := float) abc path12 = Ok [0.5; 0.5]%float /\
   allocatePathTravelTimeToLinks (F := float) abc path12 0%float 90%float
     = Ok ([10; 20], [0.5; 0.5]%float, [30; 60]%float))
  /\
  (initializeShortestPaths (F := Q) (new_HwyNetwork abc_net) = Ok abc /\
   getPaths (F := Q) fuel abc state1 state2 = Ok [Some path12] /\
   exists ratios link_tt,
     allocatePathTravelTimeToLinks (F := Q) abc path12 0%Q 90%Q
       = Ok ([10; 20], ratios, link_tt) /\
     getPathTraversalRatios (F := Q) abc path12 = Ok ratios /\
     Qlist_eq ratios [1 # 2; 1 # 2]%Q /\
     Qlist_eq link_tt [30; 60]%Q).
Proof.
  split.
  - split; [vm_compute; reflexivity|].
    split; [destruct fuel; vm_compute; reflexivity|].
    split; vm_compute; reflexivity.
  - split; [vm_compute; reflexivity|].
    split; [destruct fuel; vm_compute; reflexivity|].
    eexists _, _. split; [vm_compute; reflexivity|].
    split; [vm_compute; reflexivity|].
    split; repeat constructor.
Qed.

Lemma state_in_link_Q (net0 : Network Q) (s : State Q) :
  state_in_link net0 s = true ->
  state_on_network net0 s = true /\
  (0 <= offset_ratio net0 s <= 1)%Q.
Proof.
  unfold state_in_link, state_on_network, offset_ratio.
  destruct (getLinkForId net0 (link_id s)) as [l| |]; try discriminate.
  rewrite !andb_true_iff, !negb_true_iff.
  intros [[Hlen Hlo] Hhi].
  apply (proj1 (fltb_Q_true _ _)) in Hlen.
  apply (proj1 (fltb_Q_false _ _)) in Hlo, Hhi.
  change (@f0 Q Q_ops) with 0%Q in *.
  split.
  - apply (proj2 (fis_zero_Q_false _)). lra.
  - change (@fquot Q Q_ops) with Qdiv. split.
    + apply Qle_shift_div_l; [done|]. lra.
    + apply Qle_shift_div_r; [done|]. lra.
Qed.

(** On a path of two links or more, built from valid states, every
    traversal ratio lies in [0, 1]. *)
Lemma traversal_ratios_unit_interval_multi_link
    (self : HwyNetwork Q) (p : Path Q) :
  (2 <= length (links p))%nat ->
  state_in_link (net self) (start p) = true ->
  state_in_link (net self) (end_ p) = true ->
  exists ratios,
    getPathTraversalRatios self p = Ok ratios /\
    Forall (fun r => (0 <= r <= 1)%Q) ratios.
Proof.
  intros Hn Hs He.
  apply state_in_link_Q in Hs as [Hs Hr1], He as [He Hr2].
  eexists. split.
  { apply getPathTraversalRatios_on_network; [|done..].
    destruct (links p); [simpl in Hn; lia|done]. }
  set (r1 := offset_ratio _ (start p)) in *.
  set (r2 := offset_ratio _ (end_ p)) in *.
  clearbody r1 r2. unfold ratios_of.
  set (n := length (links p)) in *.
  assert (Hlast : <[0%nat := fsub f1 r1]> (replicate n f1) !! (n - 1)%nat = Some f1).
  { rewrite list_lookup_insert_ne by lia.
    apply lookup_replicate_2. lia. }
  rewrite Hlast. simpl default.
  apply Forall_insert; [apply Forall_insert|].
  - apply Forall_replicate. split; discriminate.
  - change (0 <= 1 - r1 <= 1)%Q. lra.
  - change (0 <= 1 - (1 - r2) <= 1)%Q. lra.
Qed.

(** On a single-link path the ratio is the difference of the two offset
    ratios. *)
Lemma traversal_ratio_single_link (self : HwyNetwork Q) (p : Path Q) :
  length (links p) = 1%nat ->
  state_in_link (net self) (start p) = true ->
  state_in_link (net self) (end_ p) = true ->
  exists ratio,
    getPathTraversalRatios self p = Ok [ratio] /\
    (ratio == offset_ratio (net self) (end_ p)
              - offset_ratio (net self) (start p))%Q /\
    (-1 <= ratio <= 1)%Q.
Proof.
  intros Hn Hs He.
  apply state_in_link_Q in Hs as [Hs Hr1], He as [He Hr2].
  set (r1 := offset_ratio _ (start p)) in *.
  set (r2 := offset_ratio _ (end_ p)) in *.
  exists (1 - r1 - (1 - r2))%Q. split.
  { rewrite getPathTraversalRatios_on_network; [|by destruct (links p)|done..].
    rewrite Hn. reflexivity. }
  clearbody r1 r2. split; [ring|lra].
Qed.

(** C9, at a path the resolver builds from two valid states on link
    A->B, the second one (offset 10 of 100) behind the first (offset 90
    of 100): the single traversal ratio is -0.8, outside [0, 1]. *)
Theorem backward_single_link_ratio_negative :
  state_in_link (F := Q) abc_net state_far = true /\
  state_in_link (F := Q) abc_net state_near = true /\
  getPaths (F := Q) 0 abc state_far state_near = Ok [Some path_backward] /\
  (exists ratio,
     getPathTraversalRatios (F := Q) abc path_backward = Ok [ratio] /\
     (ratio == - (8 # 10))%Q /\ ~ (0 <= ratio <= 1)%Q) /\
  state_in_link (F := float) abc_net state_far = true /\
  state_in_link (F := float) abc_net state_near = true /\
  getPaths (F := float) 0 abc state_far state_near = Ok [Some path_backward] /\
  (exists ratio,
     getPathTraversalRatios (F := float) abc path_backward = Ok [ratio] /\
     ratio = (-0x1.999999999999ap-1)%float /\
     PrimFloat.ltb ratio 0%float = true).
Proof.
  repeat (split; [vm_compute; reflexivity|]).
  split.
  - eexists. split; [vm_compute; reflexivity|]. split; [reflexivity|].
    intros [Hlo _]. apply Hlo. reflexivity.
  - repeat (split; [vm_compute; reflexivity|]).
    eexists. split; [vm_compute; reflexivity|]. split; reflexivity.
Qed.

(** ** The routing index *)

Section Matrices.

Context {A : Type}.

Lemma mk_matrix_length (n : nat) (f : nat -> nat -> A) :
  length (mk_matrix n f) = n.
Proof. unfold mk_matrix. by rewrite length_fmap, length_seq. Qed.

Lemma mk_matrix_row (n : nat) (f : nat -> nat -> A) (i : nat) :
  (i < n)%nat -> mk_matrix n f !! i = Some (f i <$> seq 0 n).
Proof.
  intros Hi. unfold mk_matrix.
  by rewrite list_lookup_fmap, lookup_seq_lt.
Qed.

Lemma mk_matrix_rows (n : nat) (f : nat -> nat -> A) :
  Forall (fun row => length row = n) (mk_matrix n f).
Proof.
  apply Forall_lookup. intros i row Hrow.
  assert (Hi : (i < n)%nat).
  { apply lookup_lt_Some in Hrow. by rewrite mk_matrix_length in Hrow. }
  rewrite mk_matrix_row in Hrow by done. injection Hrow as <-.
  by rewrite length_fmap, length_seq.
Qed.

Lemma cell_mk_matrix (d : A) (n : nat) (f : nat -> nat -> A) (i j : nat) :
  (i < n)%nat -> (j < n)%nat -> cell d (mk_matrix n f) i j = f i j.
Proof.
  intros Hi Hj. unfold cell. rewrite mk_matrix_row by done. simpl.
  by rewrite list_lookup_fmap, lookup_seq_lt.
Qed.

(** Reading an array of shape [n] x [n] at an index in range. *)
Lemma np_getitem2_cell (d : A) (m : list (list A)) (n i j : nat) :
  length m = n -> Forall (fun row => length row = n) m ->
  (i < n)%nat -> (j < n)%nat ->
  np_getitem2 m (Z.of_nat i) (Z.of_nat j) = Ok (cell d m i j).
Proof.
  intros Hm Hrows Hi Hj. unfold np_getitem2, cell.
  destruct (lookup_lt_is_Some_2 m i) as [row Hrow]; [lia|].
  rewrite (py_getitem_nat _ _ _ Hrow), Hrow. simpl.
  assert (Hlen : length row = n)
    by (eapply (proj1 (Forall_lookup _ _) Hrows); eauto).
  destruct (lookup_lt_is_Some_2 row j) as [x Hx]; [lia|].
  by rewrite (py_getitem_nat _ _ _ Hx), Hx.
Qed.

End Matrices.

Section FloydWarshall.

Context {F : Type} `{FloatOps F}.

Lemma fw_step_square n st k :
  square n (fw_step n st k).1 /\ square n (fw_step n st k).2.
Proof.
  destruct st as [D P]. unfold fw_step, square. simpl.
  rewrite !mk_matrix_length. repeat split; apply mk_matrix_rows.
Qed.

Lemma fw_step_isolated n st k v :
  (k < n)%nat -> isolated n st v -> isolated n (fw_step n st k) v.
Proof.
  destruct st as [D P]. intros Hk Hiso i j Hi Hj Hne Hv.
  unfold fw_step. simpl. rewrite !cell_mk_matrix by done.
  destruct (Hiso i j Hi Hj Hne Hv) as [HD HP]. simpl in HD, HP.
  unfold fw_relax.
  assert (Hcut : cell None D i k = None \/ cell None D k j = None).
  { destruct (decide (k = i)) as [->|Hki]; [by right|].
    destruct (decide (k = j)) as [->|Hkj]; [by left|].
    destruct Hv as [->| ->].
    - left. apply (Hiso v k); auto.
    - right. apply (Hiso k v); auto. }
  destruct Hcut as [-> | Hcut]; [done|].
  rewrite Hcut. by destruct (cell None D i k).
Qed.

Lemma fw_step_reflexive n st k :
  reflexive n st -> reflexive n (fw_step n st k).
Proof.
  destruct st as [D P]. intros Hrefl i Hi.
  unfold fw_step. simpl. rewrite cell_mk_matrix by done.
  destruct (Hrefl i Hi) as [d Hd]. simpl in Hd.
  unfold fw_relax. rewrite Hd.
  destruct (cell None D i k), (cell None D k i); simpl; try done.
  by destruct (fltb _ _).
Qed.

Lemma fw_init_square graph :
  square (length graph) (fw_init graph).1 /\
  square (length graph) (fw_init graph).2.
Proof.
  unfold fw_init, square. simpl.
  rewrite !mk_matrix_length. repeat split; apply mk_matrix_rows.
Qed.

Lemma fw_init_isolated graph v :
  (forall i j, (i < length graph)%nat -> (j < length graph)%nat ->
               i = v \/ j = v -> cell None graph i j = None) ->
  isolated (length graph) (fw_init graph) v.
Proof.
  intros Hg i j Hi Hj Hne Hv. unfold fw_init. simpl.
  rewrite !cell_mk_matrix by done.
  apply Nat.eqb_neq in Hne. rewrite Hne.
  by rewrite (Hg i j Hi Hj Hv).
Qed.

Lemma fw_init_reflexive graph : reflexive (length graph) (fw_init graph).
Proof.
  intros i Hi. unfold fw_init. simpl. rewrite cell_mk_matrix by done.
  by rewrite Nat.eqb_refl.
Qed.

(** An invariant of the steps holds of the result. *)
Lemma fw_fold_invariant (n : nat) (Inv : _ -> Prop) (ks : list nat) st :
  (forall st k, (k < n)%nat -> Inv st -> Inv (fw_step n st k)) ->
  Forall (fun k => (k < n)%nat) ks ->
  Inv st -> Inv (fold_left (fw_step n) ks st).
Proof.
  intros Hstep. revert st.
  induction ks as [|k ks IH]; intros st Hks Hst; simpl; [done|].
  inversion Hks; subst. apply IH; auto.
Qed.

Lemma seq_all_lt (n : nat) : Forall (fun k => (k < n)%nat) (seq 0 n).
Proof. apply Forall_forall. intros k Hk. apply elem_of_seq in Hk. lia. Qed.

Lemma shortest_path_square graph :
  square (length graph) (shortest_path graph).1 /\
  square (length graph) (shortest_path graph).2.
Proof.
  unfold shortest_path.
  apply (fw_fold_invariant (length graph)
           (fun st => square (length graph) st.1 /\ square (length graph) st.2)).
  - intros st k _ _. apply fw_step_square.
  - apply seq_all_lt.
  - apply fw_init_square.
Qed.

Lemma shortest_path_isolated graph v :
  (forall i j, (i < length graph)%nat -> (j < length graph)%nat ->
               i = v \/ j = v -> cell None graph i j = None) ->
  isolated (length graph) (shortest_path graph) v.
Proof.
  intros Hg. unfold shortest_path.
  apply (fw_fold_invariant (length graph)
           (fun st => isolated (length graph) st v)).
  - intros st k Hk. by apply fw_step_isolated.
  - apply seq_all_lt.
  - by apply fw_init_isolated.
Qed.

Lemma shortest_path_reflexive graph :
  reflexive (length graph) (shortest_path graph).
Proof.
  unfold shortest_path.
  apply (fw_fold_invariant (length graph) (reflexive (length graph))).
  - intros st k _. apply fw_step_reflexive.
  - apply seq_all_lt.
  - apply fw_init_reflexive.
Qed.

End FloydWarshall.

Section Initialization.

Context {F : Type} `{FloatOps F}.

(** STEP 1: the two dictionaries after the loop over the nodes. *)
Lemma index_nodes_spec (nodes : list Z) (n2i0 i2n0 : gmap Z Z) (i0 : Z)
    (n2i1 i2n1 : gmap Z Z) (i1 : Z) :
  fold_left index_node nodes (n2i0, i2n0, i0) = (n2i1, i2n1, i1) ->
  i1 = i0 + Z.of_nat (length nodes) /\
  (forall k : nat, (k < length nodes)%nat ->
     i2n1 !! (i0 + Z.of_nat k) = nodes !! k) /\
  (forall z : Z, z < i0 \/ i1 <= z -> i2n1 !! z = i2n0 !! z) /\
  (forall id z, n2i1 !! id = Some z ->
     n2i0 !! id = Some z \/
     (i0 <= z < i1 /\ nodes !! Z.to_nat (z - i0) = Some id)) /\
  (forall id, is_Some (n2i0 !! id) \/ id ∈ nodes -> is_Some (n2i1 !! id)).
Proof.
  revert n2i0 i2n0 i0.
  induction nodes as [|x xs IH]; intros n2i0 i2n0 i0 E; simpl in E.
  - injection E as <- <- <-. simpl.
    split; [lia|]. split; [intros k Hk; lia|]. split; [done|].
    split; [auto|]. intros id [Hs|Hin]; [done|]. by apply elem_of_nil in Hin.
  - apply IH in E as (Hi & Hfwd & Hout & Hback & Hdom). simpl length.
    split; [lia|]. split; [|split; [|split]].
    + intros [|k] Hk; simpl in *.
      * rewrite Z.add_0_r, Hout by lia. apply lookup_insert_eq.
      * rewrite <- (Hfwd k) by lia. f_equal. lia.
    + intros z Hz. rewrite Hout by lia. apply lookup_insert_ne. lia.
    + intros id z Hz. apply Hback in Hz as [Hz|[Hr Hz]].
      * destruct (decide (x = id)) as [->|Hne].
        -- rewrite lookup_insert_eq in Hz. injection Hz as <-.
           right. split; [lia|]. by rewrite Z.sub_diag.
        -- rewrite lookup_insert_ne in Hz by done. by left.
      * right. split; [lia|].
        replace (Z.to_nat (z - i0)) with (S (Z.to_nat (z - (i0 + 1)))) by lia.
        done.
    + intros id Hid. apply Hdom.
      destruct (decide (x = id)) as [->|Hne].
      * left. rewrite lookup_insert_eq. eauto.
      * rewrite lookup_insert_ne by done.
        destruct Hid as [Hid|Hid]; [by left|right].
        apply elem_of_cons in Hid as [->|Hid]; done.
Qed.

(** STEP 2: the three lists after the loop over the links. *)
Lemma append_links_spec (n2i0 : gmap Z Z) (ls : list (RoadLink F))
    (anodes bnodes : list Z) (costs : list F) :
  Forall (fun l => is_Some (n2i0 !! getStartNodeId l)
                   /\ is_Some (n2i0 !! getEndNodeId l)) ls ->
  exists anodes' bnodes',
    foldM (append_link n2i0) (anodes, bnodes, costs) ls
      = Ok (anodes ++ anodes', bnodes ++ bnodes',
            costs ++ map (fun l => fmul f60 (getFreeFlowTTInMin l)) ls) /\
    Forall (fun a => exists id, n2i0 !! id = Some a) anodes' /\
    Forall (fun b => exists id, n2i0 !! id = Some b) bnodes'.
Proof.
  revert anodes bnodes costs.
  induction ls as [|l ls IH]; intros anodes bnodes costs Hls.
  - exists [], []. simpl. by rewrite !app_nil_r.
  - inversion Hls as [|? ? [[a Ha] [b Hb]] Hls']; subst.
    destruct (IH (anodes ++ [a]) (bnodes ++ [b])
                 (costs ++ [fmul f60 (getFreeFlowTTInMin l)]) Hls')
      as (as' & bs' & E & Has & Hbs).
    exists (a :: as'), (b :: bs'). simpl.
    unfold dict_getitem. rewrite Ha, Hb. simpl.
    rewrite E, <- !app_assoc. simpl.
    split; [done|]. split; constructor; eauto.
Qed.

Lemma csr_matrix_in_range (data : list F) (row col : list Z) (num : Z) :
  Forall (fun a => 0 <= a < num) row ->
  Forall (fun b => 0 <= b < num) col ->
  csr_matrix data row col num
    = Ok (mk_matrix (Z.to_nat num) (csr_cell (zip data (zip row col)))).
Proof.
  intros Hrow Hcol. unfold csr_matrix.
  replace (forallb _ _) with true; [done|].
  symmetry. apply forallb_forall. intros (c & a & b) Hin.
  apply list_elem_of_In, elem_of_zip_r in Hin.
  pose proof (elem_of_zip_l _ _ _ _ Hin) as Ha.
  pose proof (elem_of_zip_r _ _ _ _ Hin) as Hb.
  rewrite Forall_forall in Hrow, Hcol.
  specialize (Hrow _ Ha). specialize (Hcol _ Hb).
  rewrite !andb_true_iff, !Z.leb_le, !Z.ltb_lt. lia.
Qed.

Lemma csr_cell_None (entries : list (F * (Z * Z))) (i j : nat) :
  Forall (fun '(_, (a, b)) => a <> Z.of_nat i \/ b <> Z.of_nat j) entries ->
  csr_cell entries i j = None.
Proof.
  unfold csr_cell. induction 1 as [|(c & a & b) es Hab _ IH]; [done|].
  simpl. replace ((a =? Z.of_nat i) && (b =? Z.of_nat j)) with false; [done|].
  symmetry. apply andb_false_iff. rewrite !Z.eqb_neq. done.
Qed.

End Initialization.

Section InitializationSpec.

Context {F : Type} `{FloatOps F}.

Lemma links_between_nodes_Forall (net0 : Network F) :
  links_between_nodes net0 = true ->
  Forall (fun l => getStartNodeId l ∈ iterNodes net0
                   /\ getEndNodeId l ∈ iterNodes net0)
         (iterRoadLinks net0).
Proof.
  unfold links_between_nodes. rewrite forallb_forall, Forall_forall.
  intros Hb l Hl. apply list_elem_of_In, Hb in Hl.
  apply andb_true_iff in Hl as [Ha Hb'].
  apply bool_decide_eq_true in Ha, Hb'. done.
Qed.

Lemma zip_entries_Forall {X} (P : Z -> Z -> Prop) (data : list X)
    (ls : list (RoadLink F)) (f g : RoadLink F -> Z) :
  Forall (fun l => P (f l) (g l)) ls ->
  length data = length ls ->
  Forall (fun '(_, (a, b)) => P a b) (zip data (zip (map f ls) (map g ls))).
Proof.
  intros Hls. revert data.
  induction Hls as [|l ls Hl _ IH]; intros [|c data] Hlen; simpl in *;
    try done.
  constructor; [done|]. apply IH. lia.
Qed.

Lemma initializeShortestPaths_initialized (self : HwyNetwork F) :
  links_between_nodes (net self) = true ->
  exists hn, initializeShortestPaths self = Ok hn /\ initialized self hn.
Proof.
  intros Hlinks. apply links_between_nodes_Forall in Hlinks.
  unfold initializeShortestPaths.
  set (nodes := iterNodes (net self)) in *.
  destruct (fold_left index_node nodes (∅, ∅, 0)) as [[n2i1 i2n1] i1] eqn:E1.
  apply index_nodes_spec in E1 as (Hi1 & Hfwd & Hout & Hback & Hdom).
  simpl in Hi1.
  assert (Hval : forall id z, n2i1 !! id = Some z ->
            0 <= z < i1 /\ nodes !! Z.to_nat z = Some id).
  { intros id z Hz. apply Hback in Hz as [Hz|[Hr Hz]]; [done|].
    by rewrite Z.sub_0_r in Hz. }
  (* STEP 2, written with the index of every end node *)
  set (ia := fun l : RoadLink F => default 0 (n2i1 !! getStartNodeId l)).
  set (ib := fun l : RoadLink F => default 0 (n2i1 !! getEndNodeId l)).
  assert (E2 : forall ls anodes bnodes costs,
            Forall (fun l => getStartNodeId l ∈ nodes /\ getEndNodeId l ∈ nodes) ls ->
            foldM (append_link n2i1) (anodes, bnodes, costs) ls
            = Ok (anodes ++ map ia ls, bnodes ++ map ib ls,
                  costs ++ map (fun l => fmul f60 (getFreeFlowTTInMin l)) ls)).
  { induction ls as [|l ls IH]; intros anodes bnodes costs Hls; simpl.
    - by rewrite !app_nil_r.
    - inversion Hls as [|? ? [Ha Hb] Hls']; subst.
      destruct (Hdom (getStartNodeId l)) as [a Ea]; [by right|].
      destruct (Hdom (getEndNodeId l)) as [b Eb]; [by right|].
      unfold dict_getitem, ia, ib. rewrite Ea, Eb. simpl.
      rewrite IH by done. by rewrite <- !app_assoc. }
  rewrite (E2 _ _ _ _ Hlinks). cbn [bind app].
  set (ls := iterRoadLinks (net self)) in *.
  assert (Hin : forall l, l ∈ ls ->
            0 <= ia l < i1 /\ 0 <= ib l < i1 /\
            n2i1 !! getStartNodeId l = Some (ia l) /\
            n2i1 !! getEndNodeId l = Some (ib l)).
  { intros l Hl.
    rewrite Forall_forall in Hlinks. destruct (Hlinks l Hl) as [Ha Hb].
    destruct (Hdom (getStartNodeId l)) as [a Ea]; [by right|].
    destruct (Hdom (getEndNodeId l)) as [b Eb]; [by right|].
    unfold ia, ib. rewrite Ea, Eb. simpl.
    destruct (Hval _ _ Ea), (Hval _ _ Eb). done. }
  rewrite csr_matrix_in_range; cycle 1.
  { apply Forall_forall. intros a Ha. apply list_elem_of_In, in_map_iff in Ha
      as (l & <- & Hl). apply list_elem_of_In, Hin in Hl. lia. }
  { apply Forall_forall. intros b Hb. apply list_elem_of_In, in_map_iff in Hb
      as (l & <- & Hl). apply list_elem_of_In, Hin in Hl. lia. }
  cbn [bind].
  replace (Z.to_nat (i1 + 1)) with (S (length nodes)) by lia.
  set (entries := zip _ _).
  set (graph := mk_matrix (S (length nodes)) (csr_cell entries)).
  assert (Hlen : length graph = S (length nodes)) by apply mk_matrix_length.
  pose proof (shortest_path_square graph) as [Hsk Hpr].
  pose proof (shortest_path_reflexive graph) as Hrefl.
  pose proof (shortest_path_isolated graph) as Hiso.
  destruct (shortest_path graph) as [sk pr] eqn:E3.
  rewrite Hlen in *. simpl in Hsk, Hpr.
  eexists. split; [done|].
  subst nodes ls.
  constructor; simpl; try done.
  - intros z Hz. rewrite Hout by lia. apply lookup_empty.
  - intros id z Hz. destruct (Hval _ _ Hz). split; [lia|done].
  - intros id Hid. apply Hdom. by right.
  - intros v Hv. apply Hiso. intros i j Hi Hj Hij.
    unfold graph. rewrite cell_mk_matrix by done.
    apply csr_cell_None. unfold entries.
    apply (zip_entries_Forall
             (fun a b => a <> Z.of_nat i \/ b <> Z.of_nat j)); [|by rewrite length_map].
    apply Forall_forall. intros l Hl.
    destruct (Hin l Hl) as (_ & _ & Ea & Eb).
    rewrite Forall_forall in Hv. destruct (Hv l Hl) as [Hva Hvb].
    rewrite Ea in Hva. rewrite Eb in Hvb.
    destruct Hij as [->| ->]; [left|right]; congruence.
Qed.

End InitializationSpec.

(** C10. [initializeShortestPaths] numbers the [N] nodes 0 .. N-1, and
    builds matrices of [N+1] rows and columns ([num_nodes = i + 1]).
    Index [N] names no node; in [skim] it is at infinite distance from
    and to every node, and has no predecessor in [pred]. *)
Theorem routing_index_has_spare_vertex
    (F : Type) (ops : FloatOps F) (self : HwyNetwork F) :
  let nodes := iterNodes (net self) in
  let N := length nodes in
  links_between_nodes (net self) = true ->
  exists hn,
    initializeShortestPaths self = Ok hn /\
    (* dense indices *)
    (forall k : nat, (k < N)%nat -> i2n hn !! Z.of_nat k = nodes !! k) /\
    (forall id z, n2i hn !! id = Some z ->
       0 <= z < Z.of_nat N /\ nodes !! Z.to_nat z = Some id) /\
    (forall id, id ∈ nodes -> is_Some (n2i hn !! id)) /\
    (* shape (N+1) x (N+1) *)
    length (skim hn) = S N /\
    Forall (fun row => length row = S N) (skim hn) /\
    length (pred hn) = S N /\
    Forall (fun row => length row = S N) (pred hn) /\
    (* index N is no node *)
    i2n hn !! Z.of_nat N = None /\
    (forall id, n2i hn !! id <> Some (Z.of_nat N)) /\
    (* and cannot be reached *)
    (forall i : nat, (i < N)%nat ->
       np_getitem2 (skim hn) (Z.of_nat i) (Z.of_nat N) = Ok None /\
       np_getitem2 (skim hn) (Z.of_nat N) (Z.of_nat i) = Ok None /\
       np_getitem2 (pred hn) (Z.of_nat i) (Z.of_nat N) = Ok NO_PRED /\
       np_getitem2 (pred hn) (Z.of_nat N) (Z.of_nat i) = Ok NO_PRED).
Proof.
  intros nodes N Hlinks.
  destruct (initializeShortestPaths_initialized self Hlinks) as (hn & E & I).
  destruct I as [_ Hi2n Hi2n_dom Hn2i Hn2i_dom [Hs1 Hs2] [Hp1 Hp2] _ Hiso].
  fold nodes N in Hi2n, Hi2n_dom, Hn2i, Hn2i_dom, Hs1, Hs2, Hp1, Hp2, Hiso.
  exists hn. repeat (split; [done|]).
  split; [apply Hi2n_dom; lia|].
  assert (Hnot : forall id, n2i hn !! id <> Some (Z.of_nat N)).
  { intros id Hid. apply Hn2i in Hid. lia. }
  split; [done|].
  intros i Hi.
  assert (HisoN : isolated (S N) (skim hn, pred hn) N).
  { apply Hiso. apply Forall_forall. intros l _. split; apply Hnot. }
  destruct (HisoN i N) as [HD1 HP1]; [lia..|by right|].
  destruct (HisoN N i) as [HD2 HP2]; [lia..|by left|].
  simpl in *.
  rewrite !(np_getitem2_cell None _ (S N)), !(np_getitem2_cell NO_PRED _ (S N))
    by (done || lia).
  by rewrite HD1, HD2, HP1, HP2.
Qed.

Lemma routing_index_has_spare_vertex_witness :
  links_between_nodes (F := float) (net (new_HwyNetwork abc_net)) = true /\
  exists hn,
    initializeShortestPaths (F := float) (new_HwyNetwork abc_net) = Ok hn /\
    length (skim hn) = 4%nat /\
    i2n hn !! 3 = None /\
    np_getitem2 (skim hn) 0 3 = Ok None /\
    np_getitem2 (skim hn) 3 0 = Ok None.
Proof.
  split; [vm_compute; reflexivity|].
  destruct (routing_index_has_spare_vertex float _ (new_HwyNetwork abc_net))
    as (hn & E & _ & _ & _ & Hlen & _ & _ & _ & Hi & _ & Hcut);
    [vm_compute; reflexivity|].
  exists hn. split; [exact E|]. split; [exact Hlen|]. split; [exact Hi|].
  destruct (Hcut 0%nat) as (H1 & H2 & _); [simpl; lia|].
  split; [exact H1|exact H2].
Defined.

(** C6 (as the code has it).  [initializeShortestPaths] does not look at
    the number of nodes or links.  On a network without links, of any
    number [N >= 0] of nodes, it returns normally: the matrices have
    [N+1] rows and columns, [skim] holds a number on the diagonal and
    infinity elsewhere, [pred] holds -9999 off the diagonal. *)
Theorem initialization_accepts_empty_network
    (F : Type) (ops : FloatOps F) (nodes : list Z) :
  let N := length nodes in
  exists hn,
    initializeShortestPaths
      (new_HwyNetwork {| iterNodes := nodes; iterRoadLinks := [] |}) = Ok hn /\
    length (skim hn) = S N /\
    Forall (fun row => length row = S N) (skim hn) /\
    length (pred hn) = S N /\
    Forall (fun row => length row = S N) (pred hn) /\
    (forall i : nat, (i <= N)%nat ->
       exists x, np_getitem2 (skim hn) (Z.of_nat i) (Z.of_nat i) = Ok (Some x)) /\
    (forall i j : nat, (i <= N)%nat -> (j <= N)%nat -> i <> j ->
       np_getitem2 (skim hn) (Z.of_nat i) (Z.of_nat j) = Ok None /\
       np_getitem2 (pred hn) (Z.of_nat i) (Z.of_nat j) = Ok NO_PRED).
Proof.
  intros N.
  set (self := new_HwyNetwork {| iterNodes := nodes; iterRoadLinks := [] |}).
  destruct (initializeShortestPaths_initialized self) as (hn & E & I); [done|].
  destruct I as [_ _ _ _ _ [Hs1 Hs2] [Hp1 Hp2] Hrefl Hiso].
  simpl in Hs1, Hs2, Hp1, Hp2, Hrefl, Hiso. fold N in Hs1, Hs2, Hp1, Hp2, Hrefl, Hiso.
  exists hn. repeat (split; [done|]). split.
  - intros i Hi. destruct (Hrefl i) as [x Hx]; [lia|]. simpl in Hx.
    exists x. rewrite (np_getitem2_cell None _ (S N)) by (done || lia).
    by rewrite Hx.
  - intros i j Hi Hj Hne.
    destruct (Hiso i (Forall_nil_2 _) i j) as [HD HP]; [lia..|done|by left|].
    simpl in HD, HP.
    rewrite (np_getitem2_cell None _ (S N)), (np_getitem2_cell NO_PRED _ (S N))
      by (done || lia).
    by rewrite HD, HP.
Qed.

(** C6, the claim as stated, on the network without nodes and links: no
    error is raised; the result is a routing index of one row and one
    column. *)
Lemma empty_network_not_rejected :
  initializeShortestPaths (F := float) (new_HwyNetwork empty_net)
    = Ok {| net := empty_net; n2i := ∅; i2n := ∅;
            skim := [[Some 0%float]]; pred := [[-9999]] |}.
Proof. vm_compute. reflexivity. Qed.

(** ** Path resolution: the properties *)

Section NodeSequence.

Context {F : Type} `{FloatOps F}.

Lemma trace_path_walk (self : HwyNetwork F) (start j : Z) (w : list Z) :
  pred_walk self start j w ->
  forall (fuel : nat) (path : list (option Z)),
    (length w <= fuel)%nat ->
    trace_path fuel self start j path = Ok (path ++ map Some w).
Proof.
  induction 1 as [|j j' node w Hne Hnode Hpred Hw IH]; intros fuel path Hfuel.
  - destruct fuel; simpl; rewrite Z.eqb_refl; by rewrite app_nil_r.
  - destruct fuel as [|fuel]; simpl in Hfuel; [lia|]. simpl.
    apply Z.eqb_neq in Hne. rewrite Hne.
    unfold dict_getitem. rewrite Hnode. cbn [bind]. rewrite Hpred. cbn [bind].
    rewrite IH by lia. by rewrite <- app_assoc.
Qed.

Lemma trace_path_Ok_inv (self : HwyNetwork F) (start : Z) (fuel : nat) :
  forall (j : Z) (path out : list (option Z)),
    trace_path fuel self start j path = Ok out ->
    exists w, pred_walk self start j w /\ out = path ++ map Some w.
Proof.
  induction fuel as [|fuel IH]; intros j path out; simpl;
    destruct (j =? start) eqn:Ej.
  - apply Z.eqb_eq in Ej as ->. intros [= <-]. exists [].
    split; [constructor|by rewrite app_nil_r].
  - discriminate.
  - apply Z.eqb_eq in Ej as ->. intros [= <-]. exists [].
    split; [constructor|by rewrite app_nil_r].
  - intros E. apply Z.eqb_neq in Ej.
    apply bind_Ok in E as (node & Hnode & E).
    apply bind_Ok in E as (j' & Hpred & E).
    apply IH in E as (w & Hw & ->).
    unfold dict_getitem in Hnode.
    destruct (i2n self !! j) as [node'|] eqn:Hj; [|discriminate].
    injection Hnode as ->.
    exists (node :: w). split; [by econstructor|].
    by rewrite <- app_assoc.
Qed.

(** Whatever [getShortestPathNodeSequence] returns for a pair at finite
    cost is such a walk, reversed. *)
Lemma getShortestPathNodeSequence_Ok_inv (fuel : nat) (self : HwyNetwork F)
    (startNode endNode start end' : Z) (cost : option F)
    (out : list (option Z)) :
  n2i self !! startNode = Some start ->
  n2i self !! endNode = Some end' ->
  np_getitem2 (skim self) start end' = Ok cost ->
  isinf cost = false ->
  getShortestPathNodeSequence fuel self startNode endNode = Ok out ->
  exists w node,
    pred_walk self start end' w /\
    i2n self !! start = Some node /\
    out = map Some (rev (w ++ [node])).
Proof.
  intros Hs He Hc Hinf. unfold getShortestPathNodeSequence, dict_getitem.
  rewrite Hs, He. cbn [bind]. rewrite Hc. cbn [bind]. rewrite Hinf.
  intros E. apply bind_Ok in E as (path & Hpath & E).
  apply trace_path_Ok_inv in Hpath as (w & Hw & ->).
  destruct (i2n self !! start) as [node|]; [|discriminate].
  cbn [bind app] in E. injection E as <-.
  exists w, node. by rewrite map_rev, map_app.
Qed.

End NodeSequence.

(** C5 (as the code has it).  When [skim[start, end]] is infinite,
    [getShortestPathNodeSequence] returns the one-element list [[None]].
    Otherwise it returns the ids met when walking [pred[start, *]]
    backward from [end] to [start], in reverse order, [startNode]
    first. *)
Theorem node_sequence_or_placeholder
    (F : Type) (ops : FloatOps F) (fuel : nat) (self : HwyNetwork F)
    (startNode endNode start end' : Z) (cost : option F) :
  n2i self !! startNode = Some start ->
  n2i self !! endNode = Some end' ->
  np_getitem2 (skim self) start end' = Ok cost ->
  (isinf cost = true ->
     getShortestPathNodeSequence fuel self startNode endNode = Ok [None])
  /\
  (isinf cost = false ->
     forall (w : list Z) (node : Z),
       pred_walk self start end' w ->
       i2n self !! start = Some node ->
       (length w <= fuel)%nat ->
       getShortestPathNodeSequence fuel self startNode endNode
         = Ok (map Some (rev (w ++ [node])))).
Proof.
  intros Hs He Hc. unfold getShortestPathNodeSequence, dict_getitem.
  rewrite Hs, He. cbn [bind]. rewrite Hc. cbn [bind].
  split; intros Hinf; rewrite Hinf; [done|].
  intros w node Hw Hnode Hfuel.
  rewrite (trace_path_walk self start end' w Hw) by done.
  cbn [bind]. rewrite Hnode. cbn [bind app].
  by rewrite map_rev, map_app.
Qed.

Lemma node_sequence_or_placeholder_witness :
  n2i (F := float) abc !! 1 = Some 0 /\
  n2i (F := float) abc !! 3 = Some 2 /\
  np_getitem2 (skim (F := float) abc) 0 2 = Ok (Some 180%float) /\
  getShortestPathNodeSequence (F := float) 2 abc 1 3
    = Ok [Some 1; Some 2; Some 3].
Proof.
  split; [vm_compute; reflexivity|].
  split; [vm_compute; reflexivity|].
  split; [vm_compute; reflexivity|].
  refine (proj2 (node_sequence_or_placeholder float _ 2%nat abc 1 3 0 2
                   (Some 180%float) _ _ _) _ [3; 2] 1 _ _ _);
    try (vm_compute; reflexivity).
  eapply (walk_step abc 0 2 1 3); [lia|vm_compute; reflexivity..|].
  eapply (walk_step abc 0 1 0 2); [lia|vm_compute; reflexivity..|].
  apply walk_done.
Defined.

(** C5, the claim as stated, on the three-node network: from C there is
    no path to A, and the result is the placeholder list. *)
Lemma unreachable_node_sequence_is_placeholder :
  np_getitem2 (skim (F := float) abc) 2 0 = Ok None /\
  getShortestPathNodeSequence (F := float) 4 abc 3 1 = Ok [None].
Proof. split; vm_compute; reflexivity. Qed.

Section Collections.

Context {F : Type} `{FloatOps F}.

(** [getPaths] returns a list of exactly one element. *)
Lemma getPaths_singleton (fuel : nat) (self : HwyNetwork F) (s1 s2 : State F)
    (ps : list (option (Path F))) :
  getPaths fuel self s1 s2 = Ok ps -> exists p, ps = [p].
Proof.
  unfold getPaths. destruct (link_id s1 =? link_id s2).
  - intros [= <-]. eauto.
  - intros E.
    apply bind_Ok in E as (l1 & _ & E). apply bind_Ok in E as (l2 & _ & E).
    apply bind_Ok in E as (si & _ & E). apply bind_Ok in E as (ei & _ & E).
    apply bind_Ok in E as (cost & _ & E).
    destruct (isinf cost).
    + injection E as <-. eauto.
    + apply bind_Ok in E as (nodeSeq & _ & E).
      apply bind_Ok in E as (linkSeq & _ & E).
      injection E as <-. eauto.
Qed.

Variables (fuel : nat) (self : HwyNetwork F) (sc1 sc2 : StateCollection F).

Local Abbreviation n1 := (length (states sc1)).
Local Abbreviation n2 := (length (states sc2)).
Local Abbreviation loop_inv := (loop_inv fuel self sc1 sc2).

Hypothesis Hall : all_pairs_resolve fuel self sc1 sc2 = true.

Lemma pair_resolves (i1 i2 : nat) (s1 s2 : State F) :
  states sc1 !! i1 = Some s1 -> states sc2 !! i2 = Some s2 ->
  exists p, getPaths fuel self s1 s2 = Ok [p].
Proof.
  intros H1 H2. unfold all_pairs_resolve in Hall.
  rewrite forallb_forall in Hall.
  pose proof (Hall s1 (proj1 (list_elem_of_In _ _)
                         (list_elem_of_lookup_2 _ _ _ H1))) as Hrow.
  rewrite forallb_forall in Hrow.
  pose proof (Hrow s2 (proj1 (list_elem_of_In _ _)
                         (list_elem_of_lookup_2 _ _ _ H2))) as Hp.
  destruct (getPaths fuel self s1 s2) as [ps| |] eqn:E; try discriminate.
  destruct (getPaths_singleton _ _ _ _ _ E) as [p ->]. eauto.
Qed.

Lemma pair_body_step (k1 k2 : nat) acc :
  (k1 < n1)%nat -> (k2 < n2)%nat -> loop_inv k1 k2 acc ->
  exists acc',
    pair_body fuel self sc1 sc2 (Z.of_nat k1) acc (Z.of_nat k2) = Ok acc' /\
    loop_inv k1 (S k2) acc'.
Proof.
  intros Hk1 Hk2. destruct acc as [[[t1 t2] paths] num].
  intros (Hnum & Ht1 & Ht2 & Hlen & Hent).
  destruct (lookup_lt_is_Some_2 (states sc1) k1) as [s1 Hs1]; [done|].
  destruct (lookup_lt_is_Some_2 (states sc2) k2) as [s2 Hs2]; [done|].
  destruct (pair_resolves _ _ _ _ Hs1 Hs2) as [p Hp].
  unfold pair_body.
  rewrite (py_getitem_nat _ _ _ Hs1), (py_getitem_nat _ _ _ Hs2). cbn [bind].
  rewrite Hp. cbn [bind]. simpl.
  eexists. split; [done|].
  unfold loop_inv. rewrite !length_app. simpl.
  split; [lia|]. split; [lia|]. split; [lia|]. split; [lia|].
  intros i1 i2 Hi2 Hcase.
  destruct (decide (i1 = k1 /\ i2 = k2)) as [[-> ->]|Hold].
  - exists s1, s2, p. repeat (split; [done|]). simpl.
    rewrite <- Hlen. subst num.
    split; [|split]; by apply list_lookup_middle.
  - destruct (Hent i1 i2 Hi2) as (s1' & s2' & p' & E1 & E2 & Ep & Hp' & Ht1' & Ht2');
      [lia|].
    exists s1', s2', p'. repeat (split; [done|]). simpl in *.
    split; [|split]; by apply lookup_app_l_Some.
Qed.

Lemma inner_loop (k1 k2 : nat) acc :
  (k1 < n1)%nat -> (k2 <= n2)%nat -> loop_inv k1 0 acc ->
  exists acc',
    foldM (pair_body fuel self sc1 sc2 (Z.of_nat k1)) acc (py_range k2) = Ok acc' /\
    loop_inv k1 k2 acc'.
Proof.
  intros Hk1 Hk2 Hinv. induction k2 as [|k2 IH].
  - exists acc. done.
  - destruct IH as (acc1 & E1 & Hinv1); [lia|].
    destruct (pair_body_step k1 k2 acc1) as (acc2 & E2 & Hinv2); [done..|].
    exists acc2. rewrite py_range_S, foldM_app, E1. simpl. by rewrite E2.
Qed.

Lemma loop_inv_next_row (k1 : nat) acc :
  loop_inv k1 n2 acc -> loop_inv (S k1) 0 acc.
Proof.
  destruct acc as [[[t1 t2] paths] num].
  intros (Hnum & Ht1 & Ht2 & Hlen & Hent).
  repeat (split; [done || lia|]).
  intros i1 i2 Hi2 Hcase. apply Hent; [done|]. lia.
Qed.

Lemma outer_loop (k1 : nat) :
  (k1 <= n1)%nat ->
  exists acc',
    foldM (fun acc i1 =>
             foldM (pair_body fuel self sc1 sc2 i1) acc (py_range n2))
          ([], [], [], 0) (py_range k1) = Ok acc' /\
    loop_inv k1 0 acc'.
Proof.
  intros Hk1. induction k1 as [|k1 IH].
  - eexists. split; [done|]. repeat (split; [done|]).
    intros i1 i2 _ Hcase. lia.
  - destruct IH as (acc1 & E1 & Hinv1); [lia|].
    destruct (inner_loop k1 n2 acc1) as (acc2 & E2 & Hinv2); [done..|].
    exists acc2. rewrite py_range_S, foldM_app, E1. simpl. rewrite E2.
    split; [done|]. by apply loop_inv_next_row.
Qed.

End Collections.

(** C2 (as the code has it).  Every pair of states contributes exactly
    one entry, reachable or not.  For an unreachable pair [getPaths]
    returns [[None]], and that [None] is appended to [paths] with a
    tuple in [trans1] and in [trans2] like any path: the lists have
    [n1 * n2] entries, the one of pair [(i1, i2)] at position
    [i1 * n2 + i2]. *)
Theorem every_pair_yields_one_entry
    (F : Type) (ops : FloatOps F) (fuel : nat) (self : HwyNetwork F)
    (sc1 sc2 : StateCollection F) :
  let n1 := length (states sc1) in
  let n2 := length (states sc2) in
  all_pairs_resolve fuel self sc1 sc2 = true ->
  exists trans1 paths trans2,
    getPathsBetweenCollections fuel self sc1 sc2 = Ok (trans1, paths, trans2) /\
    length paths = (n1 * n2)%nat /\
    length trans1 = (n1 * n2)%nat /\
    length trans2 = (n1 * n2)%nat /\
    forall (i1 i2 : nat) (s1 s2 : State F),
      states sc1 !! i1 = Some s1 ->
      states sc2 !! i2 = Some s2 ->
      let k := (i1 * n2 + i2)%nat in
      exists p,
        getPaths fuel self s1 s2 = Ok [p] /\
        paths !! k = Some p /\
        trans1 !! k = Some (Z.of_nat i1, Z.of_nat k) /\
        trans2 !! k = Some (Z.of_nat k, Z.of_nat i2).
Proof.
  intros n1 n2 Hall. subst n1 n2.
  destruct (outer_loop fuel self sc1 sc2 Hall (length (states sc1)))
    as (acc & E & Hinv); [done|].
  destruct acc as [[[t1 t2] paths] num].
  destruct Hinv as (Hnum & Ht1 & Ht2 & Hlen & Hent).
  exists t1, paths, t2. unfold getPathsBetweenCollections. rewrite E.
  split; [done|]. split; [lia|]. split; [lia|]. split; [lia|].
  intros i1 i2 s1 s2 Hs1 Hs2.
  destruct (Hent i1 i2) as (s1' & s2' & p & E1 & E2 & Ep & Hp);
    [by eapply lookup_lt_Some|left; by eapply lookup_lt_Some|].
  rewrite Hs1 in E1. rewrite Hs2 in E2.
  injection E1 as <-. injection E2 as <-.
  exists p. done.
Qed.

Lemma every_pair_yields_one_entry_witness :
  all_pairs_resolve (F := float) 4 abc
    {| states := [state1; state2] |} {| states := [state1; state2] |} = true /\
  exists trans1 paths trans2,
    getPathsBetweenCollections (F := float) 4 abc
      {| states := [state1; state2] |} {| states := [state1; state2] |}
      = Ok (trans1, paths, trans2) /\
    length paths = 4%nat /\
    getPaths (F := float) 4 abc state2 state1 = Ok [None] /\
    paths !! 2%nat = Some None /\
    trans1 !! 2%nat = Some (1, 2) /\
    trans2 !! 2%nat = Some (2, 0).
Proof.
  split; [vm_compute; reflexivity|].
  destruct (every_pair_yields_one_entry float _ 4 abc
              {| states := [state1; state2] |} {| states := [state1; state2] |})
    as (t1 & paths & t2 & E & Hlen & _ & _ & Hent); [vm_compute; reflexivity|].
  exists t1, paths, t2. split; [exact E|]. split; [exact Hlen|].
  destruct (Hent 1%nat 0%nat state2 state1 eq_refl eq_refl) as (p & Ep & Hp).
  assert (Hnone : getPaths (F := float) 4 abc state2 state1 = Ok [None])
    by (vm_compute; reflexivity).
  split; [exact Hnone|].
  rewrite Hnone in Ep. injection Ep as <-. exact Hp.
Defined.

(** C2, the claim as stated, on the three-node network: there is no path
    from link B->C back to link A->B, yet the pair has an entry in
    [paths] and a tuple in each of [trans1] and [trans2]. *)
Lemma unreachable_pair_not_skipped :
  getPaths (F := float) 4 abc state2 state1 = Ok [None] /\
  getPathsBetweenCollections (F := float) 4 abc
    {| states := [state2] |} {| states := [state1] |}
    = Ok ([(0, 0)], [None], [(0, 0)]).
Proof. split; vm_compute; reflexivity. Qed.

(** ** Further properties: path resolution *)

Section ResolvedPaths.

Context {F : Type} `{FloatOps F}.

Lemma getLinkForNodeIdPair_Ok (net0 : Network F) (a b : Z) (l : RoadLink F) :
  getLinkForNodeIdPair net0 a b = Ok l ->
  l ∈ iterRoadLinks net0 /\ getStartNodeId l = a /\ getEndNodeId l = b.
Proof.
  unfold getLinkForNodeIdPair.
  destruct (find _ _) as [l'|] eqn:E; [|discriminate]. intros [= ->].
  apply find_some in E as [Hin Hab].
  apply andb_true_iff in Hab as [Ha Hb].
  apply Z.eqb_eq in Ha, Hb. split; [by apply list_elem_of_In|done].
Qed.

Lemma getLinkForId_Ok (net0 : Network F) (lid : Z) (l : RoadLink F) :
  getLinkForId net0 lid = Ok l -> l ∈ iterRoadLinks net0 /\ getId l = lid.
Proof.
  unfold getLinkForId.
  destruct (find _ _) as [l'|] eqn:E; [|discriminate]. intros [= ->].
  apply find_some in E as [Hin Hid]. apply Z.eqb_eq in Hid.
  split; [by apply list_elem_of_In|done].
Qed.

(** The loop of [getPaths] over the node sequence, run for the first [m]
    pairs of nodes. *)
Lemma link_loop_prefix (net0 : Network F) (nodeSeq : list (option Z))
    (lid1 : Z) (m : nat) (out : list Z) :
  foldM (fun linkSeq i =>
           a <- py_getitem nodeSeq (i - 1) ;;
           b <- py_getitem nodeSeq i ;;
           link <- match a, b with
                   | Some a, Some b => getLinkForNodeIdPair net0 a b
                   | _, _ => Raise DtaError
                   end ;;
           Ok (linkSeq ++ [getId link]))
        [lid1] (map Z.of_nat (seq 1 m)) = Ok out ->
  exists interior,
    out = lid1 :: interior /\ length interior = m /\
    forall k lid, interior !! k = Some lid -> joins net0 nodeSeq k lid.
Proof.
  revert out. induction m as [|m IH]; intros out.
  - simpl. intros [= <-]. exists []. split; [done|]. split; [done|].
    intros k lid Hk. by rewrite lookup_nil in Hk.
  - rewrite seq_S, map_app, foldM_app. intros E.
    apply bind_Ok in E as (out1 & E1 & E).
    destruct (IH _ E1) as (interior & -> & Hlen & Hjoin).
    cbn [foldM] in E. apply bind_Ok in E as (out2 & E & [= <-]).
    apply bind_Ok in E as (a & Ha & E). apply bind_Ok in E as (b & Hb & E).
    apply bind_Ok in E as (l & Hl & E). injection E as <-.
    exists (interior ++ [getId l]).
    split; [done|]. split; [rewrite length_app; simpl; lia|].
    intros k lid Hk.
    destruct (decide (k < length interior)%nat) as [Hlt|Hge].
    + rewrite lookup_app_l in Hk by done. by apply Hjoin.
    + rewrite lookup_app_r in Hk by lia.
      destruct (k - length interior)%nat as [|d] eqn:Hd; simpl in Hk;
        [|by rewrite lookup_nil in Hk].
      injection Hk as <-. assert (k = m) as -> by lia.
      apply py_getitem_Ok_inv in Ha as (ka & Hka & Ha).
      apply py_getitem_Ok_inv in Hb as (kb & Hkb & Hb).
      assert (Hlb : (S m < length nodeSeq)%nat).
      { apply lookup_lt_Some in Hb. unfold py_index in Hkb.
        destruct ((0 <=? Z.of_nat (1 + m)) && (Z.of_nat (1 + m) <? _)) eqn:Hr.
        - apply andb_true_iff in Hr as [_ Hr]. apply Z.ltb_lt in Hr. lia.
        - destruct ((- _ <=? _) && (Z.of_nat (1 + m) <? 0)) eqn:Hr';
            [|discriminate].
          apply andb_true_iff in Hr' as [_ Hr']. apply Z.ltb_lt in Hr'. lia. }
      replace (Z.of_nat (1 + m) - 1) with (Z.of_nat m) in Hka by lia.
      rewrite py_index_nat in Hka by lia.
      change (Z.of_nat (1 + m)) with (Z.of_nat (S m)) in Hkb.
      rewrite py_index_nat in Hkb by lia.
      injection Hka as <-. injection Hkb as <-.
      destruct a as [a|], b as [b|]; try discriminate.
      destruct (getLinkForNodeIdPair_Ok _ _ _ _ Hl) as (_ & Hs & He).
      exists a, b, l. done.
Qed.

(** What [getPaths] does when the two links differ and a path comes
    back. *)
Lemma getPaths_found_inv (fuel : nat) (self : HwyNetwork F)
    (s1 s2 : State F) (p : Path F) :
  link_id s1 <> link_id s2 ->
  getPaths fuel self s1 s2 = Ok [Some p] ->
  exists l1 l2 nodeSeq interior,
    getLinkForId (net self) (link_id s1) = Ok l1 /\
    getLinkForId (net self) (link_id s2) = Ok l2 /\
    getShortestPathNodeSequence fuel self (getEndNodeId l1) (getStartNodeId l2)
      = Ok nodeSeq /\
    p = {| start := s1; links := link_id s1 :: interior ++ [link_id s2];
           end_ := s2 |} /\
    length interior = (length nodeSeq - 1)%nat /\
    forall k lid, interior !! k = Some lid -> joins (net self) nodeSeq k lid.
Proof.
  intros Hne. unfold getPaths.
  apply Z.eqb_neq in Hne. rewrite Hne. intros E.
  apply bind_Ok in E as (l1 & Hl1 & E). apply bind_Ok in E as (l2 & Hl2 & E).
  apply bind_Ok in E as (si & _ & E). apply bind_Ok in E as (ei & _ & E).
  apply bind_Ok in E as (cost & _ & E).
  destruct (isinf cost); [discriminate|].
  apply bind_Ok in E as (nodeSeq & Hseq & E).
  apply bind_Ok in E as (linkSeq & Hloop & E).
  unfold py_range2 in Hloop.
  apply link_loop_prefix in Hloop as (interior & -> & Hlen & Hjoin).
  injection E as <-.
  exists l1, l2, nodeSeq, interior. done.
Qed.

End ResolvedPaths.

(** X1. A path that [getPaths] returns records the two states, and its
    link sequence starts with the link of the first state and ends with
    the link of the second ("Always includes the first and last
    link"). *)
Theorem getPaths_includes_first_and_last
    (F : Type) (ops : FloatOps F) (fuel : nat) (self : HwyNetwork F)
    (s1 s2 : State F) (p : Path F) :
  getPaths fuel self s1 s2 = Ok [Some p] ->
  start p = s1 /\ end_ p = s2 /\
  head (links p) = Some (link_id s1) /\
  last (links p) = Some (link_id s2).
Proof.
  intros E. destruct (decide (link_id s1 = link_id s2)) as [Heq|Hne].
  - rewrite getPaths_same_link in E by done. injection E as <-.
    simpl. by rewrite Heq.
  - apply getPaths_found_inv in E as (l1 & l2 & ns & interior & _ & _ & _ & -> & _);
      [|done].
    simpl. repeat (split; [done|]).
    by rewrite app_comm_cons, last_snoc.
Qed.

Lemma getPaths_includes_first_and_last_witness :
  getPaths (F := float) 4 chain (chain_state 10) (chain_state 30)
    = Ok [Some {| start := chain_state 10; links := [10; 20; 30];
                  end_ := chain_state 30 |}] /\
  head [10; 20; 30] = Some 10 /\ last [10; 20; 30] = Some 30.
Proof.
  split; [vm_compute; reflexivity|].
  destruct (getPaths_includes_first_and_last float _ 4 chain
              (chain_state 10) (chain_state 30)
              {| start := chain_state 10; links := [10; 20; 30];
                 end_ := chain_state 30 |}) as (_ & _ & Hh & Hl);
    [vm_compute; reflexivity|].
  split; [exact Hh|exact Hl].
Defined.

(** X2. When the two states lie on different links, the links between
    the first and the last are those that join the consecutive nodes of
    the shortest node sequence from the end of the first link to the
    start of the last: one link per pair of nodes, starting at the
    first node of the pair and ending at the second. *)
Theorem getPaths_links_join_node_sequence
    (F : Type) (ops : FloatOps F) (fuel : nat) (self : HwyNetwork F)
    (s1 s2 : State F) (p : Path F) :
  link_id s1 <> link_id s2 ->
  getPaths fuel self s1 s2 = Ok [Some p] ->
  exists l1 l2 nodeSeq interior,
    getLinkForId (net self) (link_id s1) = Ok l1 /\
    getLinkForId (net self) (link_id s2) = Ok l2 /\
    getShortestPathNodeSequence fuel self (getEndNodeId l1) (getStartNodeId l2)
      = Ok nodeSeq /\
    links p = link_id s1 :: interior ++ [link_id s2] /\
    length interior = (length nodeSeq - 1)%nat /\
    forall k lid, interior !! k = Some lid ->
      exists a b l,
        nodeSeq !! k = Some (Some a) /\
        nodeSeq !! S k = Some (Some b) /\
        getLinkForNodeIdPair (net self) a b = Ok l /\
        getId l = lid /\ getStartNodeId l = a /\ getEndNodeId l = b.
Proof.
  intros Hne E.
  apply getPaths_found_inv in E
    as (l1 & l2 & ns & interior & H1 & H2 & H3 & -> & H5 & H6); [|done].
  exists l1, l2, ns, interior. done.
Qed.

Lemma getPaths_links_join_node_sequence_witness :
  link_id (F := float) (chain_state 10) <> link_id (F := float) (chain_state 30) /\
  getPaths (F := float) 4 chain (chain_state 10) (chain_state 30)
    = Ok [Some {| start := chain_state 10; links := [10; 20; 30];
                  end_ := chain_state 30 |}] /\
  exists nodeSeq interior,
    getShortestPathNodeSequence (F := float) 4 chain 2 3 = Ok nodeSeq /\
    [10; 20; 30] = 10 :: interior ++ [30] /\
    length interior = (length nodeSeq - 1)%nat.
Proof.
  split; [discriminate|]. split; [vm_compute; reflexivity|].
  destruct (getPaths_links_join_node_sequence float _ 4 chain
              (chain_state 10) (chain_state 30)
              {| start := chain_state 10; links := [10; 20; 30];
                 end_ := chain_state 30 |})
    as (l1 & l2 & ns & interior & H1 & H2 & H3 & H4 & H5 & _);
    [discriminate|vm_compute; reflexivity|].
  exists ns, interior.
  assert (E1 : l1 = chain_link 10 1 2)
    by (vm_compute in H1; vm_compute; congruence).
  assert (E2 : l2 = chain_link 30 3 4)
    by (vm_compute in H2; vm_compute; congruence).
  subst l1 l2. split; [exact H3|]. split; [exact H4|exact H5].
Defined.

(** ** Further properties: the routing index *)

Section IndexProperties.

Context {F : Type} `{FloatOps F}.

Lemma has_dangling_link_spec (net0 : Network F) :
  has_dangling_link net0 = negb (links_between_nodes net0).
Proof.
  unfold has_dangling_link, links_between_nodes.
  induction (iterRoadLinks net0) as [|l ls IH]; simpl; [done|].
  by rewrite IH, !negb_andb.
Qed.

(** The keys of [n2i] are node ids of the network. *)
Lemma index_nodes_keys (nodes : list Z) (n2i1 i2n1 : gmap Z Z) (i1 : Z) (id : Z) :
  fold_left index_node nodes (∅, ∅, 0) = (n2i1, i2n1, i1) ->
  is_Some (n2i1 !! id) <-> id ∈ nodes.
Proof.
  intros E. apply index_nodes_spec in E as (_ & _ & _ & Hback & Hdom).
  split.
  - intros [z Hz]. apply Hback in Hz as [Hz|[_ Hz]].
    + by rewrite lookup_empty in Hz.
    + eapply list_elem_of_lookup_2; eauto.
  - intros Hin. apply Hdom. by right.
Qed.

(** The loop over the links stops with [KeyError] at the first link one
    of whose end nodes has no index. *)
Lemma append_links_KeyError (n2i0 : gmap Z Z) (ls : list (RoadLink F))
    (acc : list Z * list Z * list F) :
  Exists (fun l => n2i0 !! getStartNodeId l = None
                   \/ n2i0 !! getEndNodeId l = None) ls ->
  foldM (append_link n2i0) acc ls = Raise KeyError.
Proof.
  revert acc. induction ls as [|l ls IH]; intros [[an bn] cs] Hex.
  - by apply Exists_nil in Hex.
  - simpl. unfold dict_getitem.
    destruct (n2i0 !! getStartNodeId l) as [a|] eqn:Ea; [|done].
    destruct (n2i0 !! getEndNodeId l) as [b|] eqn:Eb; [|done].
    simpl. apply IH.
    apply Exists_cons in Hex as [[?|?]|Hex]; congruence || done.
Qed.

Lemma initializeShortestPaths_dangling (self : HwyNetwork F) :
  has_dangling_link (net self) = true ->
  initializeShortestPaths self = Raise KeyError.
Proof.
  intros Hd. unfold initializeShortestPaths.
  destruct (fold_left index_node _ _) as [[n2i1 i2n1] i1] eqn:E1.
  rewrite append_links_KeyError; [done|].
  unfold has_dangling_link in Hd. apply existsb_exists in Hd as (l & Hl & Hbad).
  apply Exists_exists. exists l. split; [by apply list_elem_of_In|].
  apply orb_true_iff in Hbad as [Hbad|Hbad];
    apply negb_true_iff, bool_decide_eq_false in Hbad; [left|right];
    apply eq_None_not_Some; by rewrite (index_nodes_keys _ _ _ _ _ E1).
Qed.

(** Whenever [initializeShortestPaths] returns, the fields are as
    [initialized] says. *)
Lemma initializeShortestPaths_Ok_inv (self hn : HwyNetwork F) :
  initializeShortestPaths self = Ok hn ->
  links_between_nodes (net self) = true /\ initialized self hn.
Proof.
  intros E.
  destruct (links_between_nodes (net self)) eqn:Hl.
  - split; [done|].
    destruct (initializeShortestPaths_initialized self Hl) as (hn' & E' & I).
    congruence.
  - rewrite initializeShortestPaths_dangling in E; [discriminate|].
    by rewrite has_dangling_link_spec, Hl.
Qed.

(** In an initialised index, the id found at an index of [i2n] is a node
    id, and [i2n] undoes [n2i]. *)
Lemma initialized_i2n_n2i (self hn : HwyNetwork F) (id z : Z) :
  initialized self hn -> n2i hn !! id = Some z -> i2n hn !! z = Some id.
Proof.
  intros I Hz. destruct (init_n2i _ _ I _ _ Hz) as [Hr Hn].
  rewrite <- Hn, <- (init_i2n _ _ I) by lia. f_equal. lia.
Qed.

Lemma initialized_i2n_node (self hn : HwyNetwork F) (z id : Z) :
  initialized self hn -> i2n hn !! z = Some id -> id ∈ iterNodes (net self).
Proof.
  intros I Hz.
  destruct (decide (0 <= z < Z.of_nat (length (iterNodes (net self)))))
    as [Hr|Hr].
  - replace z with (Z.of_nat (Z.to_nat z)) in Hz by lia.
    rewrite (init_i2n _ _ I) in Hz by lia.
    eapply list_elem_of_lookup_2; eauto.
  - rewrite (init_i2n_dom _ _ I) in Hz by lia. discriminate.
Qed.

End IndexProperties.



(** X4. After [initializeShortestPaths], [i2n] undoes [n2i]: every node
    id has an index, and the id stored at that index is the node id.
    When no node id occurs twice in [iterNodes], the node at position
    [k] has index [k], so that the two dictionaries are inverse
    bijections between the node ids and 0 .. N-1. *)
Theorem node_index_round_trip
    (F : Type) (ops : FloatOps F) (self hn : HwyNetwork F) :
  initializeShortestPaths self = Ok hn ->
  (forall id, id ∈ iterNodes (net self) ->
     exists z, n2i hn !! id = Some z /\ i2n hn !! z = Some id) /\
  (forall id z, n2i hn !! id = Some z -> i2n hn !! z = Some id) /\
  (NoDup (iterNodes (net self)) ->
     forall (k : nat) (id : Z), iterNodes (net self) !! k = Some id ->
       n2i hn !! id = Some (Z.of_nat k) /\ i2n hn !! Z.of_nat k = Some id).
Proof.
  intros E. apply initializeShortestPaths_Ok_inv in E as [_ I].
  split; [|split].
  - intros id Hin. destruct (init_n2i_dom _ _ I id Hin) as [z Hz].
    exists z. split; [done|]. by eapply initialized_i2n_n2i.
  - intros id z Hz. by eapply initialized_i2n_n2i.
  - intros Hnd k id Hk.
    assert (Hlt : (k < length (iterNodes (net self)))%nat)
      by (by eapply lookup_lt_Some).
    split; [|by rewrite (init_i2n _ _ I)].
    destruct (init_n2i_dom _ _ I id) as [z Hz];
      [by eapply list_elem_of_lookup_2|].
    destruct (init_n2i _ _ I _ _ Hz) as [Hr Hn].
    rewrite Hz. f_equal.
    pose proof (NoDup_lookup _ _ _ _ Hnd Hn Hk). lia.
Qed.

Lemma node_index_round_trip_witness :
  initializeShortestPaths (F := float) (new_HwyNetwork chain_net) = Ok chain /\
  NoDup (iterNodes (F := float) chain_net) /\
  n2i (F := float) chain !! 3 = Some 2 /\
  i2n (F := float) chain !! 2 = Some 3.
Proof.
  split; [vm_compute; reflexivity|].
  assert (Hnd : NoDup (iterNodes (F := float) chain_net))
    by (apply (bool_decide_unpack (NoDup _)); vm_compute; exact I).
  split; [exact Hnd|].
  destruct (node_index_round_trip float _ (new_HwyNetwork chain_net) chain)
    as (_ & _ & Hk); [vm_compute; reflexivity|].
  apply (Hk Hnd 2%nat 3). reflexivity.
Defined.

Section NodeSequenceProperties.

Context {F : Type} `{FloatOps F}.

Lemma pred_walk_nodes (self hn : HwyNetwork F) (start j : Z) (w : list Z) :
  initialized self hn -> pred_walk hn start j w ->
  Forall (fun id => id ∈ iterNodes (net self)) w.
Proof.
  intros I. induction 1 as [|j j' node w _ Hnode _ _ IH]; constructor; [|done].
  by eapply initialized_i2n_node.
Qed.

Lemma trace_path_same (fuel : nat) (self : HwyNetwork F) (z : Z)
    (path : list (option Z)) :
  trace_path fuel self z z path = Ok path.
Proof. destruct fuel; simpl; by rewrite Z.eqb_refl. Qed.

End NodeSequenceProperties.

(** X5. In a routing index built by [initializeShortestPaths], a node
    sequence that [getShortestPathNodeSequence] returns (other than the
    placeholder [[None]]) starts with [startNode], ends with [endNode]
    and holds node ids of the network only. *)
Theorem node_sequence_endpoints
    (F : Type) (ops : FloatOps F) (fuel : nat) (self hn : HwyNetwork F)
    (startNode endNode : Z) (out : list (option Z)) :
  initializeShortestPaths self = Ok hn ->
  getShortestPathNodeSequence fuel hn startNode endNode = Ok out ->
  out <> [None] ->
  head out = Some (Some startNode) /\
  last out = Some (Some endNode) /\
  Forall (fun o => exists id, o = Some id /\ id ∈ iterNodes (net self)) out.
Proof.
  intros E Hout Hnot. apply initializeShortestPaths_Ok_inv in E as [_ I].
  unfold getShortestPathNodeSequence in Hout.
  apply bind_Ok in Hout as (start & Hs & Hout).
  apply bind_Ok in Hout as (end' & He & Hout).
  apply bind_Ok in Hout as (cost & Hc & Hout).
  destruct (isinf cost); [by injection Hout as <-|].
  apply bind_Ok in Hout as (path & Hpath & Hout).
  apply bind_Ok in Hout as (node & Hnode & Hout). injection Hout as <-.
  apply trace_path_Ok_inv in Hpath as (w & Hw & ->).
  unfold dict_getitem in Hs, He, Hnode.
  destruct (n2i hn !! startNode) as [z1|] eqn:Es; [|discriminate].
  destruct (n2i hn !! endNode) as [z2|] eqn:Ee; [|discriminate].
  destruct (i2n hn !! start) as [n0|] eqn:En; [|discriminate].
  injection Hs as <-. injection He as <-. injection Hnode as <-.
  pose proof (initialized_i2n_n2i _ _ _ _ I Es) as Rs.
  pose proof (initialized_i2n_n2i _ _ _ _ I Ee) as Re.
  assert (n0 = startNode) as -> by congruence.
  pose proof (pred_walk_nodes _ _ _ _ _ I Hw) as Hall.
  cbn [app]. rewrite rev_app_distr. cbn [rev app].
  split; [done|]. split.
  - inversion Hw as [Heq|j j' n1 w' Hne Hn1 Hp Hw']; subst.
    + simpl. congruence.
    + simpl. rewrite app_comm_cons, last_snoc. congruence.
  - constructor.
    + exists startNode. split; [done|]. by eapply initialized_i2n_node.
    + apply Forall_forall. intros o Ho.
      apply list_elem_of_In, in_rev, in_map_iff in Ho as (id & <- & Hid).
      exists id. split; [done|].
      rewrite Forall_forall in Hall. by apply Hall, list_elem_of_In.
Qed.

Lemma node_sequence_endpoints_witness :
  initializeShortestPaths (F := float) (new_HwyNetwork chain_net) = Ok chain /\
  getShortestPathNodeSequence (F := float) 4 chain 1 4
    = Ok [Some 1; Some 2; Some 3; Some 4] /\
  [Some 1; Some 2; Some 3; Some 4] <> [None] /\
  head [Some 1; Some 2; Some 3; Some 4] = Some (Some 1) /\
  last [Some 1; Some 2; Some 3; Some 4] = Some (Some 4).
Proof.
  split; [vm_compute; reflexivity|]. split; [vm_compute; reflexivity|].
  split; [discriminate|].
  destruct (node_sequence_endpoints float _ 4 (new_HwyNetwork chain_net) chain
              1 4 [Some 1; Some 2; Some 3; Some 4]) as (Hh & Hl & _);
    [vm_compute; reflexivity..|discriminate|].
  split; [exact Hh|exact Hl].
Defined.

(** X6. In a routing index built by [initializeShortestPaths] (exact
    arithmetic), two states on different links, the second link starting
    at the node where the first ends, resolve to the path of these two
    links, without interior links and whatever the fuel. *)
Theorem adjacent_links_two_link_path
    (fuel : nat) (self hn : HwyNetwork Q) (s1 s2 : State Q)
    (l1 l2 : RoadLink Q) :
  initializeShortestPaths self = Ok hn ->
  getLinkForId (net self) (link_id s1) = Ok l1 ->
  getLinkForId (net self) (link_id s2) = Ok l2 ->
  link_id s1 <> link_id s2 ->
  getEndNodeId l1 = getStartNodeId l2 ->
  getPaths fuel hn s1 s2
    = Ok [Some {| start := s1; links := [link_id s1; link_id s2];
                  end_ := s2 |}].
Proof.
  intros E H1 H2 Hne Hadj.
  apply initializeShortestPaths_Ok_inv in E as [Hl I].
  pose proof (init_net _ _ I) as Hnet.
  unfold getPaths. apply Z.eqb_neq in Hne. rewrite Hne, Hnet, H1, H2.
  cbn [bind]. rewrite Hadj.
  set (b := getStartNodeId l2).
  assert (Hb : b ∈ iterNodes (net self)).
  { apply getLinkForId_Ok in H2 as [Hin _].
    pose proof (links_between_nodes_Forall _ Hl) as Hall.
    rewrite Forall_forall in Hall. by destruct (Hall _ Hin). }
  destruct (init_n2i_dom _ _ I b Hb) as [z Hz].
  destruct (init_n2i _ _ I _ _ Hz) as [Hr _].
  pose proof (initialized_i2n_n2i _ _ _ _ I Hz) as Hi.
  destruct (init_skim _ _ I) as [Hs1 Hs2].
  destruct (init_refl _ _ I (Z.to_nat z)) as [x Hx]; [lia|]. simpl in Hx.
  assert (Hcost : np_getitem2 (skim hn) z z = Ok (Some x)).
  { replace z with (Z.of_nat (Z.to_nat z)) by lia.
    rewrite (np_getitem2_cell None _ _ _ _ Hs1 Hs2) by lia. by rewrite Hx. }
  unfold getShortestPathNodeSequence, dict_getitem.
  rewrite Hz. cbn [bind]. rewrite Hcost. cbn [bind isinf fisinf Q_ops].
  rewrite trace_path_same. cbn [bind]. rewrite Hi. done.
Qed.

Lemma adjacent_links_two_link_path_witness :
  initializeShortestPaths (F := Q) (new_HwyNetwork chain_net) = Ok chain /\
  getLinkForId (F := Q) chain_net 20 = Ok (chain_link 20 2 3) /\
  getLinkForId (F := Q) chain_net 30 = Ok (chain_link 30 3 4) /\
  getPaths (F := Q) 0 chain (chain_state 20) (chain_state 30)
    = Ok [Some {| start := chain_state 20; links := [20; 30];
                  end_ := chain_state 30 |}].
Proof.
  split; [vm_compute; reflexivity|].
  split; [reflexivity|]. split; [reflexivity|].
  apply (adjacent_links_two_link_path 0 (new_HwyNetwork chain_net) chain
           (chain_state 20) (chain_state 30)
           (chain_link 20 2 3) (chain_link 30 3 4)).
  - vm_compute; reflexivity.
  - reflexivity.
  - reflexivity.
  - discriminate.
  - reflexivity.
Defined.

Section LinkedNodes.

Context {F : Type} `{FloatOps F}.

Lemma csr_cell_fold_Some (entries : list (F * (Z * Z))) (i j : nat) (o : F) :
  is_Some (fold_left (fun acc '(c, (a, b)) =>
                        if (a =? Z.of_nat i) && (b =? Z.of_nat j) then
                          Some (match acc with None => c | Some o => fadd o c end)
                        else acc)
                     entries (Some o)).
Proof.
  revert o. induction entries as [|[c [a b]] es IH]; intros o; simpl; [eauto|].
  destruct ((a =? Z.of_nat i) && (b =? Z.of_nat j)); apply IH.
Qed.

(** A cell for which an entry was given holds a number. *)
Lemma csr_cell_Some (entries : list (F * (Z * Z))) (i j : nat) (c : F) :
  (c, (Z.of_nat i, Z.of_nat j)) ∈ entries -> is_Some (csr_cell entries i j).
Proof.
  unfold csr_cell. generalize (@None F).
  induction entries as [|[c' [a b]] es IH]; intros acc Hin.
  - by apply elem_of_nil in Hin.
  - simpl. apply elem_of_cons in Hin as [[= <- <- <-]|Hin].
    + rewrite !Z.eqb_refl. simpl. apply csr_cell_fold_Some.
    + by apply IH.
Qed.

(** A finite distance stays finite. *)
Lemma fw_step_finite (n : nat) st (k i j : nat) :
  (i < n)%nat -> (j < n)%nat ->
  is_Some (cell None st.1 i j) -> is_Some (cell None (fw_step n st k).1 i j).
Proof.
  destruct st as [D P]. intros Hi Hj [d Hd]. simpl in Hd.
  unfold fw_step. simpl. rewrite cell_mk_matrix by done.
  unfold fw_relax. rewrite Hd.
  destruct (cell None D i k), (cell None D k j); simpl; eauto.
  destruct (fltb _ _); eauto.
Qed.

Lemma shortest_path_finite (graph : list (list (option F))) (i j : nat) :
  (i < length graph)%nat -> (j < length graph)%nat ->
  is_Some (cell None graph i j) ->
  is_Some (cell None (shortest_path graph).1 i j).
Proof.
  intros Hi Hj Hg. unfold shortest_path.
  apply (fw_fold_invariant (length graph)
           (fun st => is_Some (cell None st.1 i j))).
  - intros st k _. by apply fw_step_finite.
  - apply seq_all_lt.
  - unfold fw_init. simpl. rewrite cell_mk_matrix by done.
    by destruct (Nat.eqb i j).
Qed.

(** [initializeShortestPaths], step by step, on a network whose links
    lie between its nodes. *)
Lemma initializeShortestPaths_unfold (self : HwyNetwork F) :
  links_between_nodes (net self) = true ->
  exists n2i1 i2n1,
    let N := length (iterNodes (net self)) in
    let ia := fun l : RoadLink F => default 0 (n2i1 !! getStartNodeId l) in
    let ib := fun l : RoadLink F => default 0 (n2i1 !! getEndNodeId l) in
    let ls := iterRoadLinks (net self) in
    let entries :=
      zip (map (fun l => fmul f60 (getFreeFlowTTInMin l)) ls)
          (zip (map ia ls) (map ib ls)) in
    let graph := mk_matrix (S N) (csr_cell entries) in
    (forall l, l ∈ ls ->
       0 <= ia l < Z.of_nat N /\ 0 <= ib l < Z.of_nat N /\
       n2i1 !! getStartNodeId l = Some (ia l) /\
       n2i1 !! getEndNodeId l = Some (ib l)) /\
    initializeShortestPaths self
      = Ok {| net := net self; n2i := n2i1; i2n := i2n1;
              skim := (shortest_path graph).1;
              pred := (shortest_path graph).2 |}.
Proof.
  intros Hlinks. apply links_between_nodes_Forall in Hlinks.
  unfold initializeShortestPaths.
  destruct (fold_left index_node _ (∅, ∅, 0)) as [[n2i1 i2n1] i1] eqn:E1.
  apply index_nodes_spec in E1 as (Hi1 & _ & _ & Hback & Hdom).
  simpl in Hi1. exists n2i1, i2n1. cbv zeta.
  set (N := length (iterNodes (net self))) in *.
  set (ia := fun l : RoadLink F => default 0 (n2i1 !! getStartNodeId l)).
  set (ib := fun l : RoadLink F => default 0 (n2i1 !! getEndNodeId l)).
  set (ls := iterRoadLinks (net self)) in *.
  set (entries := zip _ _).
  set (graph := mk_matrix (S N) (csr_cell entries)).
  assert (Hin : forall l, l ∈ ls ->
            0 <= ia l < Z.of_nat N /\ 0 <= ib l < Z.of_nat N /\
            n2i1 !! getStartNodeId l = Some (ia l) /\
            n2i1 !! getEndNodeId l = Some (ib l)).
  { intros l Hl. rewrite Forall_forall in Hlinks.
    destruct (Hlinks l Hl) as [Ha Hb].
    destruct (Hdom (getStartNodeId l)) as [a Ea]; [by right|].
    destruct (Hdom (getEndNodeId l)) as [b Eb]; [by right|].
    unfold ia, ib. rewrite Ea, Eb. simpl.
    apply Hback in Ea as [Ea|[Ea _]]; [by rewrite lookup_empty in Ea|].
    apply Hback in Eb as [Eb|[Eb _]]; [by rewrite lookup_empty in Eb|].
    subst N. repeat split; lia || done. }
  split; [exact Hin|].
  assert (E2 : forall ls' anodes bnodes costs,
            (forall l, l ∈ ls' -> l ∈ ls) ->
            foldM (append_link n2i1) (anodes, bnodes, costs) ls'
            = Ok (anodes ++ map ia ls', bnodes ++ map ib ls',
                  costs ++ map (fun l => fmul f60 (getFreeFlowTTInMin l)) ls')).
  { induction ls' as [|l ls' IH]; intros anodes bnodes costs Hsub; simpl.
    - by rewrite !app_nil_r.
    - destruct (Hin l) as (_ & _ & Ea & Eb); [apply Hsub; by left|].
      unfold dict_getitem. rewrite Ea, Eb. simpl.
      rewrite IH by (intros l' Hl'; apply Hsub; by right).
      by rewrite <- !app_assoc. }
  rewrite (E2 ls [] [] []) by done. cbn [bind app].
  rewrite csr_matrix_in_range; cycle 1.
  { apply Forall_forall. intros a Ha. apply list_elem_of_In, in_map_iff in Ha
      as (l & <- & Hl). apply list_elem_of_In, Hin in Hl. lia. }
  { apply Forall_forall. intros b Hb. apply list_elem_of_In, in_map_iff in Hb
      as (l & <- & Hl). apply list_elem_of_In, Hin in Hl. lia. }
  cbn [bind].
  replace (Z.to_nat (i1 + 1)) with (S N) by lia.
  fold entries graph. by destruct (shortest_path graph).
Qed.

Lemma zip_entries_elem (ls : list (RoadLink F)) (c : RoadLink F -> F)
    (f g : RoadLink F -> Z) (l : RoadLink F) :
  l ∈ ls -> (c l, (f l, g l)) ∈ zip (map c ls) (zip (map f ls) (map g ls)).
Proof.
  induction 1 as [l ls|l l' ls _ IH]; simpl; [by left|by right].
Qed.

End LinkedNodes.



(** ** Further properties: travel-time allocation *)

Section AllocatorErrors.

Context {F : Type} `{FloatOps F}.

Lemma getLinkOffsetRatio_unknown (self : HwyNetwork F) (s : State F) :
  link_known (net self) (link_id s) = false ->
  getLinkOffsetRatio self s = Raise DtaError.
Proof.
  unfold link_known, getLinkOffsetRatio, getLinkForId.
  by destruct (find _ _).
Qed.

Lemma getLinkOffsetRatio_zero_length (self : HwyNetwork F) (s : State F) :
  link_known (net self) (link_id s) = true ->
  state_on_network (net self) s = false ->
  getLinkOffsetRatio self s = Raise ZeroDivisionError.
Proof.
  unfold link_known, state_on_network, getLinkOffsetRatio, fdiv.
  destruct (getLinkForId _ _) as [l| |]; try discriminate.
  intros _ Hz. apply negb_false_iff in Hz. simpl. by rewrite Hz.
Qed.

(** An exception of [getPathTraversalRatios] comes out of the two
    functions that call it first. *)
Lemma ratios_error_surfaces (self : HwyNetwork F) (p : Path F)
    (start_time end_time : F) (e : exn) :
  getPathTraversalRatios self p = Raise e ->
  getPathFreeFlowTTInSeconds self p = Raise e /\
  allocatePathTravelTimeToLinks self p start_time end_time = Raise e.
Proof.
  intros E. unfold getPathFreeFlowTTInSeconds, allocatePathTravelTimeToLinks.
  by rewrite E.
Qed.

(** The summation loop either raises [DtaError] or returns, and it
    returns only if every link it went through is known. *)
Lemma ff_loop_DtaError_or_known (net0 : Network F) (lids : list Z)
    (rs : list F) (k : nat) :
  length rs = length lids -> (k <= length lids)%nat ->
  let r := foldM (fun tot_tt i =>
                    lid <- py_getitem lids i ;;
                    link <- getLinkForId net0 lid ;;
                    r <- py_getitem rs i ;;
                    Ok (fadd tot_tt (fmul (fmul f60 (getFreeFlowTTInMin link)) r)))
                 f0 (py_range k) in
  r = Raise DtaError \/
  ((exists tot, r = Ok tot) /\
   forall i lid, (i < k)%nat -> lids !! i = Some lid ->
     link_known net0 lid = true).
Proof.
  intros Hlen. induction k as [|k IH]; intros Hk r.
  - right. split; [by eexists|]. intros i lid Hi. lia.
  - subst r. rewrite py_range_S, foldM_app.
    destruct IH as [->|[[tot ->] Hknown]]; [lia|by left|]. cbn [bind foldM].
    destruct (lookup_lt_is_Some_2 lids k) as [lid Hlid]; [lia|].
    destruct (lookup_lt_is_Some_2 rs k) as [x Hx]; [lia|].
    rewrite (py_getitem_nat _ _ _ Hlid). cbn [bind].
    destruct (getLinkForId net0 lid) as [l|e|] eqn:El; cbn [bind].
    + rewrite (py_getitem_nat _ _ _ Hx). cbn [bind].
      right. split; [eexists; reflexivity|].
      intros i lid' Hi Hlid'.
      destruct (decide (i = k)) as [->|Hne]; [|apply (Hknown i); [lia|done]].
      assert (lid' = lid) as -> by congruence.
      unfold link_known. by rewrite El.
    + left. unfold getLinkForId in El.
      destruct (find _ _); [discriminate|]. by injection El as <-.
    + unfold getLinkForId in El. by destruct (find _ _).
Qed.

(** Each turn of a loop that appends one element makes the list one
    longer. *)
Lemma foldM_snoc_length {A B} (body : list B -> A -> result (list B))
    (xs : list A) (acc out : list B) :
  (forall acc x acc', body acc x = Ok acc' -> length acc' = S (length acc)) ->
  foldM body acc xs = Ok out -> length out = (length acc + length xs)%nat.
Proof.
  intros Hbody. revert acc. induction xs as [|x xs IH]; intros acc; simpl.
  - intros [= <-]. lia.
  - intros E. apply bind_Ok in E as (acc' & E1 & E).
    apply IH in E. apply Hbody in E1. lia.
Qed.

Lemma py_range_length (n : nat) : length (py_range n) = n.
Proof. unfold py_range. by rewrite length_map, length_seq. Qed.

End AllocatorErrors.

(** X8. On a path without links whose start state lies on the network,
    [getPathTraversalRatios] raises [IndexError] (at [ratios[0]]), and
    so do [getPathFreeFlowTTInSeconds] and
    [allocatePathTravelTimeToLinks]. *)
Theorem empty_path_raises_IndexError
    (F : Type) (ops : FloatOps F) (self : HwyNetwork F) (p : Path F)
    (start_time end_time : F) :
  links p = [] ->
  state_on_network (net self) (start p) = true ->
  getPathTraversalRatios self p = Raise IndexError /\
  getPathFreeFlowTTInSeconds self p = Raise IndexError /\
  allocatePathTravelTimeToLinks self p start_time end_time = Raise IndexError.
Proof.
  intros Hnil Hs.
  assert (E : getPathTraversalRatios self p = Raise IndexError).
  { unfold getPathTraversalRatios.
    rewrite (getLinkOffsetRatio_on_network _ _ Hs), Hnil. done. }
  split; [done|]. by apply ratios_error_surfaces.
Qed.

Lemma empty_path_raises_IndexError_witness :
  links (F := float) {| start := state1; links := []; end_ := state2 |} = [] /\
  state_on_network (F := float) (net abc) state1 = true /\
  getPathTraversalRatios (F := float) abc
    {| start := state1; links := []; end_ := state2 |} = Raise IndexError /\
  getPathFreeFlowTTInSeconds (F := float) abc
    {| start := state1; links := []; end_ := state2 |} = Raise IndexError /\
  allocatePathTravelTimeToLinks (F := float) abc
    {| start := state1; links := []; end_ := state2 |} 0%float 90%float
    = Raise IndexError.
Proof.
  split; [reflexivity|]. split; [vm_compute; reflexivity|].
  apply (empty_path_raises_IndexError float _ abc
           {| start := state1; links := []; end_ := state2 |} 0%float 90%float).
  - reflexivity.
  - vm_compute; reflexivity.
Defined.

(** X9. A start state whose link the network does not know makes
    [getLinkOffsetRatio], [getPathTraversalRatios],
    [getPathFreeFlowTTInSeconds] and [allocatePathTravelTimeToLinks]
    raise [DtaError]; a start state on a known link of length zero makes
    them raise [ZeroDivisionError]. *)
Theorem start_state_errors_surface
    (F : Type) (ops : FloatOps F) (self : HwyNetwork F) (p : Path F)
    (start_time end_time : F) :
  state_on_network (net self) (start p) = false ->
  let e := if link_known (net self) (link_id (start p))
           then ZeroDivisionError else DtaError in
  getLinkOffsetRatio self (start p) = Raise e /\
  getPathTraversalRatios self p = Raise e /\
  getPathFreeFlowTTInSeconds self p = Raise e /\
  allocatePathTravelTimeToLinks self p start_time end_time = Raise e.
Proof.
  intros Hs e.
  assert (E : getLinkOffsetRatio self (start p) = Raise e).
  { subst e. destruct (link_known _ _) eqn:Hk.
    - by apply getLinkOffsetRatio_zero_length.
    - by apply getLinkOffsetRatio_unknown. }
  split; [done|].
  assert (E' : getPathTraversalRatios self p = Raise e)
    by (unfold getPathTraversalRatios; by rewrite E).
  split; [done|]. by apply ratios_error_surfaces.
Qed.

Lemma start_state_errors_surface_witness :
  state_on_network (F := float) (net abc)
    {| link_id := 77; offset := 0%float; distFromGPS := None |} = false /\
  getPathTraversalRatios (F := float) abc
    {| start := {| link_id := 77; offset := 0%float; distFromGPS := None |};
       links := [77; 20]; end_ := state2 |} = Raise DtaError /\
  allocatePathTravelTimeToLinks (F := float) abc
    {| start := {| link_id := 77; offset := 0%float; distFromGPS := None |};
       links := [77; 20]; end_ := state2 |} 0%float 90%float = Raise DtaError.
Proof.
  split; [vm_compute; reflexivity|].
  destruct (start_state_errors_surface float _ abc
    {| start := {| link_id := 77; offset := 0%float; distFromGPS := None |};
       links := [77; 20]; end_ := state2 |} 0%float 90%float)
    as (_ & H2 & _ & H4); [vm_compute; reflexivity|].
  split; [exact H2|exact H4].
Defined.

(** X10. The traversal ratios do not depend on the links between the two
    states: on a path with both states on the network and a link id the
    network does not know among its links, [getPathTraversalRatios]
    returns, while [getPathFreeFlowTTInSeconds] and
    [allocatePathTravelTimeToLinks] raise [DtaError]. *)
Theorem unknown_link_raises_DtaError
    (F : Type) (ops : FloatOps F) (self : HwyNetwork F) (p : Path F)
    (start_time end_time : F) :
  state_on_network (net self) (start p) = true ->
  state_on_network (net self) (end_ p) = true ->
  forallb (link_known (net self)) (links p) = false ->
  (exists ratios, getPathTraversalRatios self p = Ok ratios) /\
  getPathFreeFlowTTInSeconds self p = Raise DtaError /\
  allocatePathTravelTimeToLinks self p start_time end_time = Raise DtaError.
Proof.
  intros Hs He Hunk.
  assert (Hne : links p <> []) by (intros Hnil; by rewrite Hnil in Hunk).
  pose proof (getPathTraversalRatios_on_network self p Hne Hs He) as Hr.
  split; [eauto|].
  assert (E : getPathFreeFlowTTInSeconds self p = Raise DtaError).
  { unfold getPathFreeFlowTTInSeconds. rewrite Hr. cbn [bind].
    destruct (ff_loop_DtaError_or_known (net self) (links p)
                (ratios_of (length (links p))
                   (offset_ratio (net self) (start p))
                   (offset_ratio (net self) (end_ p)))
                (length (links p)))
      as [E|[_ Hknown]]; [apply ratios_of_length|lia|done|].
    exfalso. apply not_true_iff_false in Hunk. apply Hunk.
    apply forallb_forall. intros lid Hin.
    apply list_elem_of_In, list_elem_of_lookup in Hin as [i Hi].
    apply (Hknown i lid); [by eapply lookup_lt_Some|done]. }
  split; [done|].
  unfold allocatePathTravelTimeToLinks. by rewrite Hr, E.
Qed.

Lemma unknown_link_raises_DtaError_witness :
  state_on_network (F := float) (net abc) state1 = true /\
  state_on_network (F := float) (net abc) state2 = true /\
  forallb (link_known (F := float) (net abc)) [10; 77; 20] = false /\
  (exists ratios,
     getPathTraversalRatios (F := float) abc
       {| start := state1; links := [10; 77; 20]; end_ := state2 |}
     = Ok ratios) /\
  getPathFreeFlowTTInSeconds (F := float) abc
    {| start := state1; links := [10; 77; 20]; end_ := state2 |}
    = Raise DtaError /\
  allocatePathTravelTimeToLinks (F := float) abc
    {| start := state1; links := [10; 77; 20]; end_ := state2 |}
    0%float 90%float = Raise DtaError.
Proof.
  split; [vm_compute; reflexivity|]. split; [vm_compute; reflexivity|].
  split; [vm_compute; reflexivity|].
  apply (unknown_link_raises_DtaError float _ abc
           {| start := state1; links := [10; 77; 20]; end_ := state2 |}
           0%float 90%float); vm_compute; reflexivity.
Defined.

(** X11. The three lists that [allocatePathTravelTimeToLinks] returns
    are aligned: the first is the path's link list, and the ratios and
    the travel times have one entry per link. *)
Theorem allocation_lists_aligned
    (F : Type) (ops : FloatOps F) (self : HwyNetwork F) (p : Path F)
    (start_time end_time : F) (lids : list Z) (ratios link_tt : list F) :
  allocatePathTravelTimeToLinks self p start_time end_time
    = Ok (lids, ratios, link_tt) ->
  lids = links p /\
  length ratios = length lids /\
  length link_tt = length lids.
Proof.
  unfold allocatePathTravelTimeToLinks. intros E.
  apply bind_Ok in E as (rs & Hr & E).
  apply bind_Ok in E as (tot & _ & E).
  apply bind_Ok in E as (tts & Hloop & E).
  injection E as <- <- <-. split; [done|].
  pose proof (getPathTraversalRatios_Ok_inv _ _ _ Hr) as (Hne & Hs & He).
  rewrite (getPathTraversalRatios_on_network _ _ Hne Hs He) in Hr.
  injection Hr as <-. split; [apply ratios_of_length|].
  apply foldM_snoc_length in Hloop.
  - by rewrite py_range_length in Hloop.
  - intros acc x acc' Hb. apply bind_Ok in Hb as (tt & _ & Hb).
    injection Hb as <-. rewrite length_app. simpl. lia.
Qed.

Lemma allocation_lists_aligned_witness :
  allocatePathTravelTimeToLinks (F := float) abc path12 0%float 90%float
    = Ok ([10; 20], [0.5; 0.5]%float, [30; 60]%float) /\
  length [0.5; 0.5]%float = length [10; 20] /\
  length [30; 60]%float = length [10; 20].
Proof.
  split; [vm_compute; reflexivity|].
  destruct (allocation_lists_aligned float _ abc path12 0%float 90%float
              [10; 20] [0.5; 0.5]%float [30; 60]%float) as (_ & H2 & H3);
    [vm_compute; reflexivity|].
  split; [exact H2|exact H3].
Defined.

Section AllocatorShape.

Local Open Scope Q_scope.

(** The travel times the allocator returns on a path of the network, in
    exact arithmetic. *)
Lemma allocate_shape (self : HwyNetwork Q) (p : Path Q) (start_time end_time : Q) :
  path_on_network (net self) p = true ->
  let rs := ratios_of (length (links p))
              (offset_ratio (net self) (start p))
              (offset_ratio (net self) (end_ p)) in
  let ffs := ff_times (net self) (links p) rs in
  let T := fold_left Qplus ffs 0 in
  let n := length (links p) in
  getPathTraversalRatios self p = Ok rs /\
  getPathFreeFlowTTInSeconds self p = Ok T /\
  allocatePathTravelTimeToLinks self p start_time end_time
    = Ok (links p, rs,
          if fltb T f0_1
          then replicate n ((end_time - start_time) * (1 / inject_Z (Z.of_nat n)))
          else map (fun ff => (end_time - start_time) * (ff / T)) ffs).
Proof.
  intros Hp. cbv zeta.
  set (rs := ratios_of _ _ _).
  set (ffs := ff_times (net self) (links p) rs).
  set (T := fold_left Qplus ffs 0).
  unfold path_on_network in Hp. rewrite !andb_true_iff in Hp.
  destruct Hp as [[[Hne Hkn] Hs] He].
  assert (Hne' : links p <> []) by (destruct (links p); [discriminate|done]).
  pose proof (getPathTraversalRatios_on_network self p Hne' Hs He) as Hr.
  fold rs in Hr.
  assert (Hlen : length rs = length (links p)) by apply ratios_of_length.
  assert (Hfl : length ffs = length (links p)) by by apply ff_times_length.
  assert (HT : getPathFreeFlowTTInSeconds self p = Ok T).
  { unfold getPathFreeFlowTTInSeconds. rewrite Hr. cbn [bind].
    rewrite (ff_loop_prefix _ _ _ (length (links p)) Hkn Hlen) by lia.
    fold ffs. by rewrite firstn_all2 by lia. }
  split; [done|]. split; [done|].
  destruct (fltb T f0_1) eqn:Hlt;
    unfold allocatePathTravelTimeToLinks; rewrite Hr, HT; cbn [bind].
  - assert (Hn : (0 < length (links p))%nat)
      by (destruct (links p); [done|simpl; lia]).
    pose proof (Exact.inject_Z_pos_nonzero _ Hn) as Hnz.
    unfold fdiv. change (@fof_int Q Q_ops) with inject_Z.
    rewrite (proj2 (Exact.fis_zero_Q_false _) Hnz).
    erewrite alloc_loop_equal by exact Hlt. done.
  - assert (HT01 : (1 # 10) <= T)
      by exact (proj1 (Exact.fltb_Q_false T (1 # 10)) Hlt).
    assert (HTnz : ~ T == 0) by lra.
    erewrite (alloc_loop_proportional _ _ _ _ _ _ (length (links p)) Hkn Hlen Hlt)
      by (apply Exact.fis_zero_Q_false; exact HTnz) || lia.
    fold ffs. by rewrite firstn_all2 by lia.
Qed.

Lemma Qsum_nonneg (l : list Q) : Forall (fun x => 0 <= x) l -> 0 <= Qsum l.
Proof. induction 1 as [|x l Hx _ IH]; simpl; [discriminate|lra]. Qed.

Lemma Qsum_bounds_element (l : list Q) (x : Q) :
  Forall (fun x => 0 <= x) l -> x ∈ l -> x <= Qsum l.
Proof.
  induction 1 as [|y l Hy Hl IH]; intros Hin.
  - by apply elem_of_nil in Hin.
  - simpl. pose proof (Qsum_nonneg l Hl).
    apply elem_of_cons in Hin as [->|Hin]; [lra|].
    specialize (IH Hin). lra.
Qed.

Lemma share_in_unit_interval (tot q : Q) :
  0 <= tot -> 0 <= q <= 1 -> 0 <= tot * q <= tot.
Proof. intros Ht [Hq0 Hq1]. split; nra. Qed.

Lemma quotient_in_unit_interval (a b : Q) :
  0 <= a <= b -> 0 < b -> 0 <= a / b <= 1.
Proof.
  intros [Ha Hab] Hb. split.
  - apply Qle_shift_div_l; [done|]. lra.
  - apply Qle_shift_div_r; [done|]. lra.
Qed.

Lemma ff_times_nonneg (net0 : Network Q) (lids : list Z) (rs : list Q) :
  free_flow_nonneg net0 lids = true ->
  Forall (fun r => 0 <= r <= 1) rs ->
  Forall (fun x => 0 <= x) (ff_times net0 lids rs).
Proof.
  unfold free_flow_nonneg, ff_times. intros Hff Hrs.
  revert lids Hff. induction Hrs as [|r rs [Hr0 Hr1] _ IH]; intros [|lid lids] Hff;
    simpl; try constructor.
  - simpl in Hff. apply andb_true_iff in Hff as [Hl _].
    unfold ff_time. destruct (getLinkForId net0 lid) as [l| |]; try discriminate.
    apply negb_true_iff in Hl.
    apply (proj1 (Exact.fltb_Q_false _ _)) in Hl.
    change (0 <= 60 * getFreeFlowTTInMin l * r).
    change (@f0 Q Q_ops) with 0 in Hl. nra.
  - apply IH. simpl in Hff. by apply andb_true_iff in Hff as [_ ?].
Qed.

Lemma free_flow_nonneg_known (net0 : Network Q) (lids : list Z) :
  free_flow_nonneg net0 lids = true -> forallb (link_known net0) lids = true.
Proof.
  unfold free_flow_nonneg. rewrite !forallb_forall. intros Hff lid Hin.
  specialize (Hff lid Hin). unfold link_known.
  by destruct (getLinkForId net0 lid).
Qed.

End AllocatorShape.





(** X14. For a valid state (its link known and of positive length, its
    offset within the link) [getLinkOffsetRatio] returns the quotient of
    offset and length, a number in [0, 1]. *)
Theorem offset_ratio_in_unit_interval (self : HwyNetwork Q) (s : State Q) :
  state_in_link (net self) s = true ->
  exists l r,
    getLinkForId (net self) (link_id s) = Ok l /\
    getLinkOffsetRatio self s = Ok r /\
    r = (offset s / getLengthInCoordinateUnits l)%Q /\
    (0 <= r <= 1)%Q.
Proof.
  intros Hs. pose proof (state_in_link_Q _ _ Hs) as [Hon Hr].
  pose proof (getLinkOffsetRatio_on_network self s Hon) as E.
  unfold offset_ratio in *.
  destruct (getLinkForId (net self) (link_id s)) as [l| |] eqn:El;
    [|unfold state_in_link in Hs; by rewrite El in Hs..].
  exists l, (offset s / getLengthInCoordinateUnits l)%Q. done.
Qed.

Lemma offset_ratio_in_unit_interval_witness :
  state_in_link (F := Q) (net abc) state_far = true /\
  exists l r,
    getLinkForId (F := Q) (net abc) 10 = Ok l /\
    getLinkOffsetRatio (F := Q) abc state_far = Ok r /\
    r = (offset state_far / getLengthInCoordinateUnits l)%Q /\
    (0 <= r <= 1)%Q.
Proof.
  split; [vm_compute; reflexivity|].
  apply (offset_ratio_in_unit_interval abc state_far).
  vm_compute; reflexivity.
Defined.

(** ** Further properties: projection and the bounding box *)

Section ProjectionProperties.

Context {F : Type} `{FloatOps F}.

(** The loop of [project] makes one state per tuple, in order. *)
Lemma project_map
    (find : Network F -> F -> F -> Z -> F -> list (RoadLink F * F * F))
    (self : HwyNetwork F) (gps_pos : GPSPosition F) :
  project find self gps_pos
  = map (fun rt : RoadLink F * F * F =>
           {| link_id := getId rt.1.1;
              offset := fmul rt.2 (getLengthInCoordinateUnits rt.1.1);
              distFromGPS := Some rt.1.2 |})
        (find (net self) (gps_x gps_pos) (gps_y gps_pos)
              PROJECT_NUM_LINKS PROJECT_DIST_THRESHOLD).
Proof.
  unfold project.
  generalize (find (net self) (gps_x gps_pos) (gps_y gps_pos)
                PROJECT_NUM_LINKS PROJECT_DIST_THRESHOLD).
  intros l.
  set (mk := fun rt : RoadLink F * F * F =>
               {| link_id := getId rt.1.1;
                  offset := fmul rt.2 (getLengthInCoordinateUnits rt.1.1);
                  distFromGPS := Some rt.1.2 |}).
  set (body := fun (states : list (State F)) (rt : RoadLink F * F * F) => _).
  assert (G : forall acc, foldl body acc l = acc ++ map mk l).
  { induction l as [|[[rl d] t] l IH]; intros acc; simpl.
    - by rewrite app_nil_r.
    - rewrite IH. by rewrite <- app_assoc. }
  exact (G []).
Qed.

End ProjectionProperties.



(** X16. [isInSanFranciscoBox] accepts the points strictly inside a
    rectangle: a point whose coordinates lie between those of two
    accepted points is accepted, and a point on an edge (x equal to
    5979762.10716, say) is not. *)
Theorem san_francisco_box_is_open_rectangle (x1 y1 x2 y2 x y : Q) :
  isInSanFranciscoBox (x1, y1) = true ->
  isInSanFranciscoBox (x2, y2) = true ->
  (x1 <= x <= x2 \/ x2 <= x <= x1)%Q ->
  (y1 <= y <= y2 \/ y2 <= y <= y1)%Q ->
  isInSanFranciscoBox (x, y) = true /\
  isInSanFranciscoBox (597976210716 # 100000, y) = false.
Proof.
  unfold isInSanFranciscoBox, fdec.
  change (@fquot Q Q_ops) with Qdiv. change (@fof_int Q Q_ops) with inject_Z.
  intros H1 H2 Hx Hy.
  destruct (_ && _) eqn:E1 in H1; [|discriminate].
  destruct (_ && _) eqn:E2 in H2; [|discriminate].
  rewrite !andb_true_iff in E1, E2.
  destruct E1 as [[[A1 B1] C1] D1], E2 as [[[A2 B2] C2] D2].
  apply (proj1 (Exact.fltb_Q_true _ _)) in A1, B1, C1, D1, A2, B2, C2, D2.
  split.
  - replace (_ && _) with true; [done|]. symmetry.
    rewrite !andb_true_iff.
    repeat split; apply Exact.fltb_Q_true; lra.
  - replace (_ && _) with false; [done|]. symmetry.
    rewrite !andb_false_iff. left; left; left.
    apply Exact.fltb_Q_false. apply Qle_lteq. right. reflexivity.
Qed.

Lemma san_francisco_box_is_open_rectangle_witness :
  isInSanFranciscoBox (F := Q) (6000000, 2100000)%Q = true /\
  isInSanFranciscoBox (F := Q) (6010000, 2110000)%Q = true /\
  (6000000 <= 6005000 <= 6010000 \/ 6010000 <= 6005000 <= 6000000)%Q /\
  (2100000 <= 2100000 <= 2110000 \/ 2110000 <= 2100000 <= 2100000)%Q /\
  isInSanFranciscoBox (F := Q) (6005000, 2100000)%Q = true /\
  isInSanFranciscoBox (F := Q) (597976210716 # 100000, 2100000)%Q = false.
Proof.
  split; [vm_compute; reflexivity|]. split; [vm_compute; reflexivity|].
  assert (Hx : (6000000 <= 6005000 <= 6010000
                \/ 6010000 <= 6005000 <= 6000000)%Q)
    by (left; split; discriminate).
  assert (Hy : (2100000 <= 2100000 <= 2110000
                \/ 2110000 <= 2100000 <= 2100000)%Q)
    by (left; split; discriminate).
  split; [exact Hx|]. split; [exact Hy|].
  apply (san_francisco_box_is_open_rectangle
           6000000 2100000 6010000 2110000 6005000 2100000);
    [vm_compute; reflexivity..|exact Hx|exact Hy].
Defined.

(** In binary64 the four bounds are the doubles that the literals of the
    source denote. *)
Lemma san_francisco_box_bounds_binary64 :
  fdec (F := float) 597976210716 100000 = 0x1.6cf9c86dbb59ep+22%float /\
  fdec (F := float) 207490826203 100000 = 0x1.fa91c431465e9p+20%float /\
  fdec (F := float) 602756722925 100000 = 0x1.6fe4bceac0831p+22%float /\
  fdec (F := float) 213088756530 100000 = 0x1.041e3c85bc01ap+21%float /\
  isInSanFranciscoBox (F := float) (6000000, 2100000)%float = true /\
  isInSanFranciscoBox (F := float) (0x1.6cf9c86dbb59ep+22, 2100000)%float = false.
Proof. repeat split; vm_compute; reflexivity. Qed.

(** ** Further properties: candidate paths *)

Section CandidatePaths.

Context {F : Type} `{FloatOps F}.

(** A loop that came to its end ran its body without exception on every
    element. *)
Lemma foldM_Ok_each {A S} (body : S -> A -> result S) (xs : list A)
    (acc out : S) (x : A) :
  foldM body acc xs = Ok out -> x ∈ xs ->
  exists a a', body a x = Ok a'.
Proof.
  revert acc. induction xs as [|y xs IH]; intros acc E Hin.
  - by apply elem_of_nil in Hin.
  - simpl in E. apply bind_Ok in E as (acc' & E1 & E).
    apply elem_of_cons in Hin as [->|Hin]; eauto.
Qed.

Lemma elem_of_py_range (n i : nat) : (i < n)%nat -> Z.of_nat i ∈ py_range n.
Proof.
  intros Hi. unfold py_range. apply list_elem_of_In, in_map, in_seq. lia.
Qed.

Lemma getPathsBetweenCollections_Ok_resolves (fuel : nat) (self : HwyNetwork F)
    (sc1 sc2 : StateCollection F) r :
  getPathsBetweenCollections fuel self sc1 sc2 = Ok r ->
  all_pairs_resolve fuel self sc1 sc2 = true.
Proof.
  unfold getPathsBetweenCollections. intros E.
  apply bind_Ok in E as (acc & Hloop & _).
  unfold all_pairs_resolve. apply forallb_forall. intros s1 H1.
  apply forallb_forall. intros s2 H2.
  apply list_elem_of_In, list_elem_of_lookup in H1 as [i1 H1].
  apply list_elem_of_In, list_elem_of_lookup in H2 as [i2 H2].
  destruct (foldM_Ok_each _ _ _ _ (Z.of_nat i1) Hloop) as (a & a' & Hin);
    [apply elem_of_py_range; by eapply lookup_lt_Some|].
  destruct (foldM_Ok_each _ _ _ _ (Z.of_nat i2) Hin) as (b & b' & Hb);
    [apply elem_of_py_range; by eapply lookup_lt_Some|].
  unfold pair_body in Hb.
  rewrite (py_getitem_nat _ _ _ H1), (py_getitem_nat _ _ _ H2) in Hb.
  cbn [bind] in Hb. apply bind_Ok in Hb as (ps & -> & _). done.
Qed.

End CandidatePaths.

(** X17. [getPaths] looks the two links up only when their ids differ.
    For a link id the network does not know: two states on that same
    link get a single-link path, on which the traversal ratios and the
    allocator then raise [DtaError]; a state on it and a state on
    another link make [getPaths] itself raise [DtaError]. *)
Theorem same_link_shortcut_skips_lookup
    (F : Type) (ops : FloatOps F) (fuel : nat) (self : HwyNetwork F)
    (s1 s2 : State F) (start_time end_time : F) :
  link_known (net self) (link_id s1) = false ->
  (link_id s1 = link_id s2 ->
     let p := {| start := s1; links := [link_id s1]; end_ := s2 |} in
     getPaths fuel self s1 s2 = Ok [Some p] /\
     getPathTraversalRatios self p = Raise DtaError /\
     allocatePathTravelTimeToLinks self p start_time end_time = Raise DtaError)
  /\
  (link_id s1 <> link_id s2 -> getPaths fuel self s1 s2 = Raise DtaError).
Proof.
  intros Hunk. split.
  - intros Heq p. split; [by apply getPaths_same_link|].
    assert (E : getPathTraversalRatios self p = Raise DtaError).
    { unfold getPathTraversalRatios.
      by rewrite (getLinkOffsetRatio_unknown self (start p) Hunk). }
    split; [done|]. by apply ratios_error_surfaces.
  - intros Hne. unfold getPaths. apply Z.eqb_neq in Hne. rewrite Hne.
    unfold link_known in Hunk. unfold getLinkForId in *.
    by destruct (find _ _).
Qed.

Lemma same_link_shortcut_skips_lookup_witness :
  link_known (F := float) (net abc) 77 = false /\
  getPaths (F := float) 0 abc
    {| link_id := 77; offset := 1%float; distFromGPS := None |}
    {| link_id := 77; offset := 2%float; distFromGPS := None |}
  = Ok [Some {| start := {| link_id := 77; offset := 1%float; distFromGPS := None |};
                links := [77];
                end_ := {| link_id := 77; offset := 2%float; distFromGPS := None |} |}] /\
  getPaths (F := float) 0 abc
    {| link_id := 77; offset := 1%float; distFromGPS := None |} state2
  = Raise DtaError.
Proof.
  split; [vm_compute; reflexivity|].
  split.
  - apply (proj1 (same_link_shortcut_skips_lookup float _ 0 abc
             {| link_id := 77; offset := 1%float; distFromGPS := None |}
             {| link_id := 77; offset := 2%float; distFromGPS := None |}
             0%float 0%float ltac:(vm_compute; reflexivity)) eq_refl).
  - apply (proj2 (same_link_shortcut_skips_lookup float _ 0 abc
             {| link_id := 77; offset := 1%float; distFromGPS := None |}
             state2 0%float 0%float ltac:(vm_compute; reflexivity))).
    discriminate.
Defined.

(** X18. [getPathsBetweenCollections] returns its three lists exactly
    when [getPaths] returns for every pair of states of the two
    collections: an exception for one pair leaves no partial result. *)
Theorem collections_all_or_nothing
    (F : Type) (ops : FloatOps F) (fuel : nat) (self : HwyNetwork F)
    (sc1 sc2 : StateCollection F) :
  (exists r, getPathsBetweenCollections fuel self sc1 sc2 = Ok r)
  <-> all_pairs_resolve fuel self sc1 sc2 = true.
Proof.
  split.
  - intros [r E]. by eapply getPathsBetweenCollections_Ok_resolves.
  - intros Hall.
    destruct (outer_loop fuel self sc1 sc2 Hall (length (states sc1)))
      as (acc & E & _); [done|].
    unfold getPathsBetweenCollections. rewrite E.
    destruct acc as [[[t1 t2] paths] num]. eauto.
Qed.

Lemma collections_all_or_nothing_witness :
  all_pairs_resolve (F := float) 4 abc
    {| states := [state1;
                  {| link_id := 77; offset := 1%float; distFromGPS := None |}] |}
    {| states := [state2] |} = false /\
  ~ exists r,
      getPathsBetweenCollections (F := float) 4 abc
        {| states := [state1;
                      {| link_id := 77; offset := 1%float; distFromGPS := None |}] |}
        {| states := [state2] |} = Ok r.
Proof.
  split; [vm_compute; reflexivity|].
  intros Hex.
  apply (proj1 (collections_all_or_nothing float _ 4 abc _ _)) in Hex.
  vm_compute in Hex. discriminate.
Defined.

(** X19. Both resolvers, [getPaths] and
    [getPathsUsingDtaAnywayImplementation], return a list of exactly one
    element whenever they return: a path, or [None] when there is
    none. *)
Theorem resolvers_return_one_element
    (F : Type) (ops : FloatOps F) (fuel : nat)
    (search : Network F -> RoadLink F -> RoadLink F -> option (list (RoadLink F)))
    (self : HwyNetwork F) (s1 s2 : State F) (ps : list (option (Path F))) :
  getPaths fuel self s1 s2 = Ok ps
  \/ getPathsUsingDtaAnywayImplementation search self s1 s2 = Ok ps ->
  exists p, ps = [p].
Proof.
  intros [E|E]; [by eapply getPaths_singleton|].
  unfold getPathsUsingDtaAnywayImplementation in E.
  apply bind_Ok in E as (l1 & _ & E). apply bind_Ok in E as (l2 & _ & E).
  destruct (search _ _ _); injection E as <-; eauto.
Qed.

Lemma resolvers_return_one_element_witness :
  getPaths (F := float) 4 abc state2 state1 = Ok [None] /\
  exists p : option (Path float), [None] = [p].
Proof.
  split; [vm_compute; reflexivity|].
  apply (resolvers_return_one_element float _ 4 (fun _ _ _ => None)
           abc state2 state1 [None]).
  left. vm_compute; reflexivity.
Defined.

Section RatioShape.

Context {F : Type} `{FloatOps F}.

Lemma ratios_of_multi_link (m : nat) (r1 r2 : F) :
  ratios_of (S (S m)) r1 r2
  = fsub f1 r1 :: replicate m f1 ++ [fsub f1 (fsub f1 r2)].
Proof.
  unfold ratios_of.
  replace (S (S m) - 1)%nat with (S m) by lia.
  change (<[0%nat := fsub f1 r1]> (replicate (S (S m)) f1))
    with (fsub f1 r1 :: replicate (S m) f1).
  change ((fsub f1 r1 :: replicate (S m) f1) !! S m)
    with (replicate (S m) f1 !! m).
  rewrite lookup_replicate_2 by lia. cbn [default].
  change (<[S m := ?x]> (fsub f1 r1 :: replicate (S m) f1))
    with (fsub f1 r1 :: <[m := x]> (replicate (S m) f1)).
  f_equal. rewrite replicate_S_end.
  rewrite insert_app_r_alt by (rewrite length_replicate; lia).
  rewrite length_replicate, Nat.sub_diag. done.
Qed.

End RatioShape.

(** X20. On a path of two links or more, the traversal ratios are
    [1 - r1] for the first link, [1] for every link in between and
    [1 - (1 - r2)] for the last, [r1] and [r2] the offset ratios of the
    start and end states. *)
Theorem traversal_ratios_multi_link
    (F : Type) (ops : FloatOps F) (self : HwyNetwork F) (p : Path F)
    (r1 r2 : F) :
  (2 <= length (links p))%nat ->
  getLinkOffsetRatio self (start p) = Ok r1 ->
  getLinkOffsetRatio self (end_ p) = Ok r2 ->
  getPathTraversalRatios self p
    = Ok (fsub f1 r1 :: replicate (length (links p) - 2) f1
            ++ [fsub f1 (fsub f1 r2)]).
Proof.
  intros Hn H1 H2.
  apply getLinkOffsetRatio_Ok_inv in H1 as [Hs ->], H2 as [He ->].
  rewrite (getPathTraversalRatios_on_network self p);
    [|intros Hnil; rewrite Hnil in Hn; simpl in Hn; lia|done..].
  destruct (length (links p)) as [|[|m]]; [lia..|].
  rewrite ratios_of_multi_link. simpl. by rewrite Nat.sub_0_r.
Qed.

Lemma traversal_ratios_multi_link_witness :
  (2 <= length (links (F := float)
                  {| start := chain_state 10; links := [10; 20; 30]%Z;
                     end_ := chain_state 30 |}))%nat /\
  getLinkOffsetRatio (F := float) chain (chain_state 10) = Ok 0.5%float /\
  getLinkOffsetRatio (F := float) chain (chain_state 30) = Ok 0.5%float /\
  getPathTraversalRatios (F := float) chain
    {| start := chain_state 10; links := [10; 20; 30]; end_ := chain_state 30 |}
    = Ok [0.5; 1; 0.5]%float.
Proof.
  split; [simpl; lia|]. split; [vm_compute; reflexivity|].
  split; [vm_compute; reflexivity|].
  rewrite (traversal_ratios_multi_link float _ chain
             {| start := chain_state 10; links := [10; 20; 30];
                end_ := chain_state 30 |} 0.5%float 0.5%float);
    [vm_compute; reflexivity|simpl; lia|vm_compute; reflexivity..].
Defined.



(** X22. In a routing index built by [initializeShortestPaths] (exact
    arithmetic), the node sequence from a node of the network to itself
    is that node alone; for a start node that the network does not list
    the call raises [KeyError]. *)
Theorem node_sequence_of_a_single_node
    (fuel : nat) (self hn : HwyNetwork Q) (node other : Z) :
  initializeShortestPaths self = Ok hn ->
  (node ∈ iterNodes (net self) ->
     getShortestPathNodeSequence fuel hn node node = Ok [Some node]) /\
  (node ∉ iterNodes (net self) ->
     getShortestPathNodeSequence fuel hn node other = Raise KeyError).
Proof.
  intros E. apply initializeShortestPaths_Ok_inv in E as [_ I].
  unfold getShortestPathNodeSequence, dict_getitem. split.
  - intros Hin. destruct (init_n2i_dom _ _ I node Hin) as [z Hz].
    destruct (init_n2i _ _ I _ _ Hz) as [Hr _].
    pose proof (initialized_i2n_n2i _ _ _ _ I Hz) as Hi.
    destruct (init_skim _ _ I) as [Hs1 Hs2].
    destruct (init_refl _ _ I (Z.to_nat z)) as [x Hx]; [lia|]. simpl in Hx.
    rewrite Hz. cbn [bind].
    replace z with (Z.of_nat (Z.to_nat z)) at 1 2 by lia.
    rewrite (np_getitem2_cell None _ _ _ _ Hs1 Hs2) by lia.
    rewrite Hx. cbn [bind isinf fisinf Q_ops].
    rewrite trace_path_same. cbn [bind]. by rewrite Hi.
  - intros Hnot. destruct (n2i hn !! node) as [z|] eqn:Hz; [|done].
    exfalso. apply Hnot. destruct (init_n2i _ _ I _ _ Hz) as [_ Hn].
    by eapply list_elem_of_lookup_2.
Qed.

Lemma node_sequence_of_a_single_node_witness :
  initializeShortestPaths (F := Q) (new_HwyNetwork chain_net) = Ok chain /\
  getShortestPathNodeSequence (F := Q) 0 chain 3 3 = Ok [Some 3] /\
  getShortestPathNodeSequence (F := Q) 0 chain 9 3 = Raise KeyError.
Proof.
  split; [vm_compute; reflexivity|].
  destruct (node_sequence_of_a_single_node 0 (new_HwyNetwork chain_net) chain 3 3)
    as [H1 _]; [vm_compute; reflexivity|].
  destruct (node_sequence_of_a_single_node 0 (new_HwyNetwork chain_net) chain 9 3)
    as [_ H2]; [vm_compute; reflexivity|].
  split.
  - apply H1.
    apply (bool_decide_unpack (3 ∈ iterNodes (F := Q) chain_net)).
    vm_compute. exact I.
  - apply H2.
    apply (bool_decide_unpack (9 ∉ iterNodes (F := Q) chain_net)).
    vm_compute. exact I.
Defined.
